(** * Relay automation engine of RPI_Monitoring_Automation

    Shallow embedding of [src/core/compoents/relay_manager.py] (class
    [RelayManager]) and of the averaging helpers of
    [src/core/compoents/sensor_manager.py].

    Modelling conventions:
    - Python floats (epoch timestamps, sensor readings, thresholds) are
      exact rationals [Q]; Python ints are [Z].
    - The dict [relay_configs] is an association list in insertion order,
      since the code iterates over it and the order is observable.
    - A Python exception escaping a method is [None] in the option monad.
    - GPIO and Tapo writes are external actuations that are assumed to
      succeed; only the [state] field they guard is modelled.
    - [time.time()] and [datetime.now()] are passed in as arguments. *)

From Stdlib Require Import QArith Qround ZArith Bool List Ascii String Lia.
Import ListNotations.
Open Scope string_scope.

(** ** Option monad (exceptions) *)

Definition obind {A B} (m : option A) (f : A -> option B) : option B :=
  match m with Some a => f a | None => None end.

Notation "x <- m ;; f" := (obind m (fun x => f))
  (at level 61, m at next level, right associativity).

(** ** Python numeric helpers *)

Definition qlt (a b : Q) : bool := negb (Qle_bool b a).
Definition qle (a b : Q) : bool := Qle_bool a b.

(** [int(x)] on a float: truncation towards zero. *)
Definition py_int (x : Q) : Z :=
  if Qle_bool 0 x then Qfloor x else (- Qfloor (- x))%Z.

(** [a % b] on floats: result has the sign of [b]; [b = 0] raises
    [ZeroDivisionError]. *)
Definition py_fmod (a b : Q) : option Q :=
  if Qeq_bool b 0 then None
  else Some (a - b * inject_Z (Qfloor (a / b)))%Q.

(** [a % b] on ints (floor modulo, like [Z.modulo]); [b = 0] raises. *)
Definition py_imod (a b : Z) : option Z :=
  if (b =? 0)%Z then None else Some (a mod b)%Z.

(** Values an API caller may pass for a numeric parameter. [bool] is a
    subclass of [int] in Python. *)
Inductive pyval :=
| PInt (z : Z)
| PBool (b : bool)
| PFloat (q : Q)
| PStr (s : string)
| PNone.

(** [isinstance(v, int)] *)
Definition py_is_int (v : pyval) : bool :=
  match v with PInt _ | PBool _ => true | _ => false end.

(** [isinstance(v, (int, float))] *)
Definition py_is_number (v : pyval) : bool :=
  match v with PInt _ | PBool _ | PFloat _ => true | _ => false end.

Definition py_int_val (v : pyval) : Z :=
  match v with PInt z => z | PBool b => if b then 1%Z else 0%Z | _ => 0%Z end.

Definition py_num (v : pyval) : Q :=
  match v with
  | PInt z => inject_Z z
  | PBool b => if b then 1 else 0
  | PFloat q => q
  | _ => 0
  end.

(** ** Data model *)

(** [datetime.time(h, m)]; compared lexicographically. *)
Record dtime := mk_dtime { hour : Z; minute : Z }.

Definition dtime_le (a b : dtime) : bool :=
  ((hour a <? hour b) || ((hour a =? hour b) && (minute a <=? minute b)))%Z.

(** [config['schedule']], held as the parsed [dt_time] values of its
    ['start'] and ['end'] strings (the strings are validated by
    [set_schedule] with [strptime("%H:%M")]). *)
Record schedule := mk_schedule { start : dtime; end_ : dtime }.

(** [config['cycle']] *)
Record cycle := mk_cycle { on_duration : Z; interval : Z; last_toggle : Z }.

(** One entry of [relay_configs]; [cycle = None] when the key is absent. *)
Record relay_config := mk_relay_config {
  name : string;
  pin : Z;
  rschedule : schedule;
  override : bool;
  override_until : Q;
  override_duration : Q;
  dependencies : list string;
  visible : bool;
  state : bool;
  rcycle : option cycle
}.

Definition set_state (b : bool) (c : relay_config) : relay_config :=
  mk_relay_config (name c) (pin c) (rschedule c) (override c)
    (override_until c) (override_duration c) (dependencies c) (visible c)
    b (rcycle c).

Definition set_override (o : bool) (u : Q) (c : relay_config) : relay_config :=
  mk_relay_config (name c) (pin c) (rschedule c) o u (override_duration c)
    (dependencies c) (visible c) (state c) (rcycle c).

Definition set_rcycle (cy : option cycle) (c : relay_config) : relay_config :=
  mk_relay_config (name c) (pin c) (rschedule c) (override c)
    (override_until c) (override_duration c) (dependencies c) (visible c)
    (state c) cy.

Definition configs := list (string * relay_config).

Fixpoint lookup (k : string) (m : configs) : option relay_config :=
  match m with
  | [] => None
  | (k', v) :: m' => if String.eqb k k' then Some v else lookup k m'
  end.

(** [m[k] = f(m[k])] for an existing key; the key order is kept. *)
Fixpoint update (k : string) (f : relay_config -> relay_config) (m : configs)
  : configs :=
  match m with
  | [] => []
  | (k', v) :: m' =>
      if String.eqb k k' then (k', f v) :: m' else (k', v) :: update k f m'
  end.

Record pair_thr := mk_pair_thr { low : Q; high : Q }.
Record co2_thr := mk_co2_thr { co2_low : Q; tubfans_low : Q; co2_high : Q }.

(** [self.thresholds] *)
Record thresholds := mk_thresholds {
  humidity : pair_thr;
  temperature : pair_thr;
  co2 : co2_thr
}.

(** The fields of [RelayManager] the engine reads and writes. *)
Record manager := mk_manager {
  relay_configs : configs;
  mthresholds : thresholds
}.

Definition with_configs (m : manager) (cs : configs) : manager :=
  mk_manager cs (mthresholds m).

(** ** Sensor snapshot ([SensorManager.sensor_data]) *)

Record dht_reading := mk_dht { d_temperature : Q; d_humidity : Q }.
Record scd_reading := mk_scd { s_temperature : Q; s_humidity : Q; s_co2 : Q }.
Record sensor_data := mk_sensor_data {
  upper_dht : dht_reading;
  lower_dht : dht_reading;
  scd40 : scd_reading
}.

Definition q_sum (l : list Q) : Q := fold_left Qplus l 0.

(** [sum(valid) / len(valid) if valid else 0] over the non-zero values. *)
Definition average_nonzero (xs : list Q) : Q :=
  let valid := filter (fun t => negb (Qeq_bool t 0)) xs in
  match valid with
  | [] => 0
  | _ => q_sum valid / inject_Z (Z.of_nat (List.length valid))
  end.

(** [SensorManager.get_average_temperature] *)
Definition get_average_temperature (sd : sensor_data) : Q :=
  average_nonzero [d_temperature (upper_dht sd); d_temperature (lower_dht sd);
                   s_temperature (scd40 sd)].

(** [SensorManager.get_average_humidity] *)
Definition get_average_humidity (sd : sensor_data) : Q :=
  average_nonzero [d_humidity (upper_dht sd); d_humidity (lower_dht sd);
                   s_humidity (scd40 sd)].

(** *** Reading loops of [SensorManager]

    One entry of [self.sensor_data] for a DHT22 sensor. *)
Record dht_entry := mk_dht_entry {
  dh_temperature : Q; dh_humidity : Q; dh_last_read : Q; dh_errors : Z
}.

(** The entry for the SCD40. *)
Record scd_entry := mk_scd_entry {
  sc_temperature : Q; sc_humidity : Q; sc_co2 : Q; sc_last_read : Q; sc_errors : Z
}.

(** What one read of a DHT22 gives: both values, a [None] value, or an
    exception. *)
Inductive dht_outcome := DhtRead (t h : Q) | DhtNone | DhtRaise.

(** What one pass of the SCD40 block gives: [data_ready] false, the three
    values, a [None] value, or an exception. *)
Inductive scd_outcome := ScdNotReady | ScdRead (co2v t h : Q) | ScdNone | ScdRaise.

Definition set_dh_errors (n : Z) (e : dht_entry) : dht_entry :=
  mk_dht_entry (dh_temperature e) (dh_humidity e) (dh_last_read e) n.

Definition set_sc_errors (n : Z) (e : scd_entry) : scd_entry :=
  mk_scd_entry (sc_temperature e) (sc_humidity e) (sc_co2 e) (sc_last_read e) n.

(** The block of [_dht_reading_loop] for one sensor: [errs] is the local
    counter ([errors_upper] or [errors_lower]), [now] the [time.time()] of a
    good read, [recovered] whether the re-creation of the sensor object
    succeeds. *)
Definition dht_block (error_threshold : Z) (o : dht_outcome) (now : Q)
  (recovered : bool) (e : dht_entry) (errs : Z) : dht_entry * Z :=
  let '(e1, n1) :=
    match o with
    | DhtRead t h => (mk_dht_entry t h now (dh_errors e), 0%Z)
    | _ => (e, (errs + 1)%Z)
    end in
  let e2 := set_dh_errors n1 e1 in
  if (error_threshold <=? n1)%Z then (e2, if recovered then 0%Z else n1)
  else (e2, n1).

(** The inputs of one iteration of [_dht_reading_loop]. *)
Record dht_iter := mk_dht_iter {
  up_outcome : dht_outcome; up_time : Q; up_recovered : bool;
  lo_outcome : dht_outcome; lo_time : Q; lo_recovered : bool
}.

Record dht_state := mk_dht_state {
  upper : dht_entry; lower : dht_entry; errors_upper : Z; errors_lower : Z
}.

(** One iteration of the [while self.running] loop: upper sensor, then lower. *)
Definition dht_iteration (error_threshold : Z) (it : dht_iter) (s : dht_state)
  : dht_state :=
  let '(u, nu) := dht_block error_threshold (up_outcome it) (up_time it)
                    (up_recovered it) (upper s) (errors_upper s) in
  let '(l, nl) := dht_block error_threshold (lo_outcome it) (lo_time it)
                    (lo_recovered it) (lower s) (errors_lower s) in
  mk_dht_state u l nu nl.

Definition dht_loop (error_threshold : Z) (its : list dht_iter) (s : dht_state)
  : dht_state :=
  fold_left (fun s it => dht_iteration error_threshold it s) its s.

(** One iteration of [_scd_reading_loop] ([errors] is its local counter). *)
Definition scd_iteration (error_threshold : Z) (o : scd_outcome) (now : Q)
  (recovered : bool) (e : scd_entry) (errors : Z) : scd_entry * Z :=
  let '(e1, n1) :=
    match o with
    | ScdNotReady => (e, errors)
    | ScdRead c t h => (mk_scd_entry t h c now (sc_errors e), 0%Z)
    | _ => (e, (errors + 1)%Z)
    end in
  let e2 := set_sc_errors n1 e1 in
  if (error_threshold <=? n1)%Z then (e2, if recovered then 0%Z else n1)
  else (e2, n1).

Definition scd_loop (error_threshold : Z) (its : list (scd_outcome * Q * bool))
  (s : scd_entry * Z) : scd_entry * Z :=
  fold_left (fun s it => let '(o, now, r) := it in
                         scd_iteration error_threshold o now r (fst s) (snd s)) its s.

(** [self.sensor_data] as [get_all_readings()] hands it to the relay tick. *)
Definition readings_of (u l : dht_entry) (s : scd_entry) : sensor_data :=
  mk_sensor_data (mk_dht (dh_temperature u) (dh_humidity u))
    (mk_dht (dh_temperature l) (dh_humidity l))
    (mk_scd (sc_temperature s) (sc_humidity s) (sc_co2 s)).

(** ** [RelayManager] methods *)

Section Engine.

(** [_is_in_schedule(relay_id, current_time)] *)
Definition is_in_schedule (cs : configs) (relay_id : string) (current_time : dtime)
  : option bool :=
  c <- lookup relay_id cs ;;
  let start_time := start (rschedule c) in
  let end_time := end_ (rschedule c) in
  Some (if dtime_le start_time end_time
        then dtime_le start_time current_time && dtime_le current_time end_time
        else dtime_le start_time current_time || dtime_le current_time end_time).

(** [_should_cycle_be_on(relay_id)]; [current_time] is the value of
    [time.time()] read inside the method. *)
Definition should_cycle_be_on (cs : configs) (relay_id : string) (current_time : Q)
  : option bool :=
  match lookup relay_id cs with
  | None => Some false
  | Some c =>
      match rcycle c with
      | None => Some false
      | Some cy =>
          let on_dur := (on_duration cy * 60)%Z in
          let intv := (interval cy * 60)%Z in
          cycle_position <- py_fmod current_time (inject_Z intv) ;;
          Some (qlt cycle_position (inject_Z on_dur))
      end
  end.

(** [_set_relay_output(relay_id, state)]: returns the boolean result and
    the updated relay table. *)
Definition set_relay_output (cs : configs) (relay_id : string) (st : bool)
  : bool * configs :=
  match lookup relay_id cs with
  | None => (false, cs)
  | Some c =>
      if Bool.eqb (state c) st then (true, cs)
      else (true, update relay_id (set_state st) cs)
  end.

(** [_should_relay_be_on(relay_id, current_time, avg_temp, avg_humidity, co2)];
    [t] is the value of [time.time()] seen by [_should_cycle_be_on]. *)
Definition should_relay_be_on (thr : thresholds) (cs : configs) (relay_id : string)
  (current_time : dtime) (t : Q) (avg_temp avg_humidity co2v : Q) : option bool :=
  c <- lookup relay_id cs ;;
  if override c then Some (state c) else
  ins <- is_in_schedule cs relay_id current_time ;;
  if negb ins then Some false else
  if String.eqb relay_id "relay1" then Some (state c)
  else if String.eqb relay_id "relay2" || String.eqb relay_id "relay3"
  then Some (state c)
  else if String.eqb relay_id "relay4" then
    cycle_on <- should_cycle_be_on cs relay_id t ;;
    let co2_trigger := qlt co2v (tubfans_low (co2 thr)) in
    c5 <- lookup "relay5" cs ;;
    Some (cycle_on || co2_trigger || state c5)
  else if String.eqb relay_id "relay5" then
    Some (qlt avg_humidity (low (humidity thr)))
  else if String.eqb relay_id "relay6" then
    Some (qlt avg_temp (low (temperature thr)))
  else if String.eqb relay_id "relay7" then
    cycle_on <- should_cycle_be_on cs relay_id t ;;
    let co2_trigger := qlt (co2_high (co2 thr)) co2v in
    c5 <- lookup "relay5" cs ;;
    Some (cycle_on || co2_trigger || state c5)
  else Some false.

(** Step "Process override timeouts" of [_process_automation]. *)
Definition purge_expired (current_timestamp : Q) (cs : configs) : configs :=
  map (fun p : string * relay_config =>
         let (rid, c) := p in
         if override c && qlt 0 (override_until c)
              && qlt (override_until c) current_timestamp
         then (rid, set_override false 0 c)
         else (rid, c)) cs.

Variables (thr : thresholds) (current_time : dtime)
  (avg_temp avg_humidity co2v : Q).

(** The [relay1_needed] loop of [_process_automation] (with its [break]);
    [clk rid] is the [time.time()] value seen when [rid] is evaluated. *)
Fixpoint relay1_needed (clk : string -> Q) (cs : configs) (items : configs)
  : option bool :=
  match items with
  | [] => Some false
  | (rid, c) :: rest =>
      if negb (String.eqb rid "relay1")
         && existsb (String.eqb "relay1") (dependencies c)
      then
        b <- should_relay_be_on thr cs rid current_time (clk rid)
               avg_temp avg_humidity co2v ;;
        if b then Some true else relay1_needed clk cs rest
      else relay1_needed clk cs rest
  end.

(** The [dependencies_met] loop (with its [break]). *)
Fixpoint dependencies_met (cs : configs) (deps : list string) : option bool :=
  match deps with
  | [] => Some true
  | dep :: deps' =>
      cd <- lookup dep cs ;;
      if negb (state cd) then Some false else dependencies_met cs deps'
  end.

(** The "Process other relays" loop of [_process_automation]. *)
Fixpoint process_relays (clk : string -> Q) (ids : list string) (cs : configs)
  : option configs :=
  match ids with
  | [] => Some cs
  | rid :: ids' =>
      if String.eqb rid "relay1" then process_relays clk ids' cs else
      c <- lookup rid cs ;;
      should_be_on <- should_relay_be_on thr cs rid current_time (clk rid)
                        avg_temp avg_humidity co2v ;;
      dm <- dependencies_met cs (dependencies c) ;;
      let cs' :=
        if should_be_on && dm then snd (set_relay_output cs rid true)
        else if negb (override c) then snd (set_relay_output cs rid false)
        else cs in
      process_relays clk ids' cs'
  end.

End Engine.

(** The alternating UV / Grow light pass of [_process_automation]. *)
Definition alternate_lights (cs : configs) (current_time : dtime)
  (current_timestamp : Q) : option configs :=
  c2 <- lookup "relay2" cs ;;
  if override c2 then Some cs else
  c3 <- lookup "relay3" cs ;;
  if override c3 then Some cs else
  uv_in_schedule <- is_in_schedule cs "relay2" current_time ;;
  grow_in_schedule <- is_in_schedule cs "relay3" current_time ;;
  if uv_in_schedule && grow_in_schedule then
    cy <- rcycle c2 ;;
    cycle_time <- py_imod (py_int (current_timestamp / 60)) (interval cy) ;;
    if (cycle_time <? on_duration cy)%Z
    then Some (snd (set_relay_output (snd (set_relay_output cs "relay2" true))
                      "relay3" false))
    else Some (snd (set_relay_output (snd (set_relay_output cs "relay2" false))
                      "relay3" true))
  else Some cs.

(** The humidifier / fan coupling pass at the end of [_process_automation]. *)
Definition humidifier_coupling (cs : configs) : option configs :=
  c5 <- lookup "relay5" cs ;;
  cs1 <- (if state c5 then
            c7 <- lookup "relay7" cs ;;
            Some (if override c7 then cs else snd (set_relay_output cs "relay7" true))
          else Some cs) ;;
  c5' <- lookup "relay5" cs1 ;;
  if state c5' then
    c4 <- lookup "relay4" cs1 ;;
    Some (if override c4 then cs1 else snd (set_relay_output cs1 "relay4" true))
  else Some cs1.

(** [_process_automation()]: one automation tick. [current_time] is
    [datetime.now()] truncated to the minute, [current_timestamp] is
    [time.time()], and [clk1]/[clk2] give the [time.time()] values read by
    [_should_cycle_be_on] in the two per-relay loops. *)
Definition process_automation (m : manager) (sd : sensor_data)
  (current_time : dtime) (current_timestamp : Q) (clk1 clk2 : string -> Q)
  : option manager :=
  let thr := mthresholds m in
  let avg_temp := get_average_temperature sd in
  let avg_humidity := get_average_humidity sd in
  let co2v := s_co2 (scd40 sd) in
  let cs0 := purge_expired current_timestamp (relay_configs m) in
  needed <- relay1_needed thr current_time avg_temp avg_humidity co2v clk1 cs0 cs0 ;;
  cs1 <- (if needed then Some (snd (set_relay_output cs0 "relay1" true))
          else
            c1 <- lookup "relay1" cs0 ;;
            Some (if override c1 then cs0
                  else snd (set_relay_output cs0 "relay1" false))) ;;
  cs2 <- process_relays thr current_time avg_temp avg_humidity co2v clk2
           (map fst cs1) cs1 ;;
  cs3 <- alternate_lights cs2 current_time current_timestamp ;;
  cs4 <- humidifier_coupling cs3 ;;
  Some (with_configs m cs4).

(** ** API methods *)






(** [set_cycle(relay_id, on_duration, interval)] *)
Definition set_cycle (m : manager) (relay_id : string) (on_dur intv : pyval)
  : bool * manager :=
  match lookup relay_id (relay_configs m) with
  | None => (false, m)
  | Some c =>
      if negb (py_is_int on_dur && py_is_int intv) then (false, m) else
      let d := py_int_val on_dur in
      let i := py_int_val intv in
      if ((d <=? 0) || (i <=? 0))%Z then (false, m) else
      if (i <? d)%Z then (false, m) else
      let cy' := match rcycle c with
                 | None => mk_cycle d i 0
                 | Some cy => mk_cycle d i (last_toggle cy)
                 end in
      (true, with_configs m (update relay_id (set_rcycle (Some cy')) (relay_configs m)))
  end.

(** [set_thresholds(threshold_type, low, high)] *)
Definition set_thresholds (m : manager) (threshold_type : string) (lo hi : pyval)
  : bool * manager :=
  if negb (existsb (String.eqb threshold_type) ["temperature"; "humidity"; "co2"])
  then (false, m) else
  if negb (py_is_number lo && py_is_number hi) then (false, m) else
  if qle (py_num hi) (py_num lo) then (false, m) else
  let l := py_num lo in
  let h := py_num hi in
  let t := mthresholds m in
  let t' :=
    if String.eqb threshold_type "temperature" then
      mk_thresholds (humidity t) (mk_pair_thr l h) (co2 t)
    else if String.eqb threshold_type "humidity" then
      mk_thresholds (mk_pair_thr l h) (temperature t) (co2 t)
    else
      mk_thresholds (humidity t) (temperature t)
        (mk_co2_thr l (tubfans_low (co2 t)) h) in
  (true, mk_manager (relay_configs m) t').






(** *** Time strings

    Strings are ASCII strings; [\d] of Python's [re] is the ASCII digits
    there. *)

Definition is_digit (c : ascii) : bool :=
  (48 <=? nat_of_ascii c)%nat && (nat_of_ascii c <=? 57)%nat.

Definition digit_val (c : ascii) : Z := (Z.of_nat (nat_of_ascii c) - 48)%Z.

Definition in_range (lo hi : nat) (c : ascii) : bool :=
  (lo <=? nat_of_ascii c)%nat && (nat_of_ascii c <=? hi)%nat.

(** The alternatives of the group [(?P<H>2[0-3]|[0-1]\d|\d)] that
    [strptime] builds for [%H], in the order the regex engine tries them:
    the value of the group and the rest of the input. *)
Definition hour_alts (s : list ascii) : list (Z * list ascii) :=
  (match s with
   | a :: b :: r => if Ascii.eqb a "2"%char && in_range 48 51 b
                    then [((20 + digit_val b)%Z, r)] else []
   | _ => []
   end) ++
  (match s with
   | a :: b :: r => if in_range 48 49 a && is_digit b
                    then [((10 * digit_val a + digit_val b)%Z, r)] else []
   | _ => []
   end) ++
  (match s with
   | a :: r => if is_digit a then [(digit_val a, r)] else []
   | _ => []
   end).

(** The alternatives of [(?P<M>[0-5]\d|\d)] for [%M]. *)
Definition minute_alts (s : list ascii) : list (Z * list ascii) :=
  (match s with
   | a :: b :: r => if in_range 48 53 a && is_digit b
                    then [((10 * digit_val a + digit_val b)%Z, r)] else []
   | _ => []
   end) ++
  (match s with
   | a :: r => if is_digit a then [(digit_val a, r)] else []
   | _ => []
   end).

(** [re.match] of [H:M]: the first way, in backtracking order, to match the
    whole pattern at the start of the input. *)
Fixpoint hm_match (hs : list (Z * list ascii)) : option (Z * Z * list ascii) :=
  match hs with
  | [] => None
  | (h, r) :: hs' =>
      match r with
      | c :: r' =>
          if Ascii.eqb c ":"%char then
            match minute_alts r' with
            | (m, r'') :: _ => Some (h, m, r'')
            | [] => hm_match hs'
            end
          else hm_match hs'
      | [] => hm_match hs'
      end
  end.

(** [datetime.strptime(s, "%H:%M")]: [None] is the [ValueError] raised when
    the pattern does not match or when unconverted data remains. *)
Definition strptime_hm (s : string) : option dtime :=
  match hm_match (hour_alts (list_ascii_of_string s)) with
  | Some (h, m, []) => Some (mk_dtime h m)
  | _ => None
  end.

(** Whitespace that [int()] strips (ASCII part of [str.isspace]). *)
Definition is_ws (c : ascii) : bool :=
  in_range 9 13 c || in_range 28 32 c.

Fixpoint drop_ws (s : list ascii) : list ascii :=
  match s with
  | c :: r => if is_ws c then drop_ws r else s
  | [] => []
  end.

(** Decimal digits with single underscores between them. *)
Fixpoint parse_digits (s : list ascii) (acc : Z) : option Z :=
  match s with
  | [] => Some acc
  | c :: r =>
      if is_digit c then parse_digits r (10 * acc + digit_val c)%Z
      else if Ascii.eqb c "_"%char then
        match r with
        | d :: r' => if is_digit d then parse_digits r' (10 * acc + digit_val d)%Z
                     else None
        | [] => None
        end
      else None
  end.

(** [int(s)] on a string, base 10. *)
Definition py_int_str (s : list ascii) : option Z :=
  let t := rev (drop_ws (rev (drop_ws s))) in
  let '(sign, body) :=
    match t with
    | c :: r => if Ascii.eqb c "-"%char then ((-1)%Z, r)
                else if Ascii.eqb c "+"%char then (1%Z, r)
                else (1%Z, t)
    | [] => (1%Z, [])
    end in
  match body with
  | d :: r => if is_digit d then option_map (Z.mul sign) (parse_digits r (digit_val d))
              else None
  | [] => None
  end.

(** [s.split(':')] *)
Fixpoint split_colon (s : list ascii) : list (list ascii) :=
  match s with
  | [] => [[]]
  | c :: r =>
      if Ascii.eqb c ":"%char then [] :: split_colon r
      else match split_colon r with
           | p :: ps => (c :: p) :: ps
           | [] => [[c]]
           end
  end.

(** How [_is_in_schedule] reads a schedule string:
    [h, m = map(int, s.split(':'))] then [dt_time(h, m)]; [None] is the
    exception raised on a bad string. *)
Definition schedule_time_of (s : string) : option dtime :=
  match split_colon (list_ascii_of_string s) with
  | [a; b] =>
      h <- py_int_str a ;;
      m <- py_int_str b ;;
      if ((0 <=? h) && (h <=? 23) && (0 <=? m) && (m <=? 59))%Z
      then Some (mk_dtime h m) else None
  | _ => None
  end.

Definition set_rschedule (s : schedule) (c : relay_config) : relay_config :=
  mk_relay_config (name c) (pin c) s (override c) (override_until c)
    (override_duration c) (dependencies c) (visible c) (state c) (rcycle c).

(** [set_schedule(relay_id, start_time, end_time)]; the schedule is stored
    as the times its strings denote. *)
Definition set_schedule (cs : configs) (relay_id start_time end_time : string)
  : bool * configs :=
  match lookup relay_id cs with
  | None => (false, cs)
  | Some _ =>
      match strptime_hm start_time, strptime_hm end_time with
      | Some st, Some en =>
          (true, update relay_id (set_rschedule (mk_schedule st en)) cs)
      | _, _ => (false, cs)
      end
  end.

(** *** [_update_config_from_profile]

    The active profile: [None] for an absent key. Threshold values are
    numbers, cycle values ints, and schedule strings are given by the times
    they denote; a nested dict is given by its [.get] lookups. *)
Record profile := mk_profile {
  p_humidity_low : option Q;
  p_humidity_high : option Q;
  p_temperature_low : option Q;
  p_temperature_high : option Q;
  p_co2_low : option Q;
  p_co2_high : option Q;
  p_fan_cycle : option (option Z * option Z);
  p_light_cycle : option (option Z * option Z);
  p_fan_schedule : option (option dtime * option dtime);
  p_light_schedule : option (option dtime * option dtime);
  p_humidity_schedule : option (option dtime * option dtime);
  p_override_duration : option Q
}.

Definition get_or {A} (o : option A) (d : A) : A :=
  match o with Some a => a | None => d end.

(** Outcome of a statement sequence inside the [try]: [inl m] when a
    [KeyError] was raised with the manager in state [m], [inr m] otherwise. *)
Definition pstep := manager -> manager + manager.

Definition pseq (s1 s2 : pstep) : pstep :=
  fun m => match s1 m with inl m' => inl m' | inr m' => s2 m' end.

Definition set_thr (f : thresholds -> thresholds) : pstep :=
  fun m => inr (mk_manager (relay_configs m) (f (mthresholds m))).

(** [self.relay_configs[rid]['cycle']['on_duration'] = d] and
    [['interval'] = i], under [if rid in self.relay_configs]. *)
Definition profile_cycle (rid : string) (d i : Z) : pstep :=
  fun m =>
    match lookup rid (relay_configs m) with
    | None => inr m
    | Some c =>
        match rcycle c with
        | None => inl m
        | Some cy =>
            inr (with_configs m (update rid (set_rcycle (Some (mk_cycle d i (last_toggle cy))))
                                   (relay_configs m)))
        end
    end.

Definition profile_schedule (rid : string) (st en : dtime) : pstep :=
  fun m =>
    match lookup rid (relay_configs m) with
    | None => inr m
    | Some _ =>
        inr (with_configs m (update rid (set_rschedule (mk_schedule st en))
                               (relay_configs m)))
    end.

Definition set_override_duration (d : Q) (c : relay_config) : relay_config :=
  mk_relay_config (name c) (pin c) (rschedule c) (override c) (override_until c)
    d (dependencies c) (visible c) (state c) (rcycle c).

Definition when_some {A} (o : option A) (f : A -> pstep) : pstep :=
  match o with Some a => f a | None => fun m => inr m end.

Definition profile_steps (p : profile) : pstep :=
  pseq (when_some (p_humidity_low p) (fun v => set_thr (fun t =>
          mk_thresholds (mk_pair_thr v (high (humidity t))) (temperature t) (co2 t)))) (
  pseq (when_some (p_humidity_high p) (fun v => set_thr (fun t =>
          mk_thresholds (mk_pair_thr (low (humidity t)) v) (temperature t) (co2 t)))) (
  pseq (when_some (p_temperature_low p) (fun v => set_thr (fun t =>
          mk_thresholds (humidity t) (mk_pair_thr v (high (temperature t))) (co2 t)))) (
  pseq (when_some (p_temperature_high p) (fun v => set_thr (fun t =>
          mk_thresholds (humidity t) (mk_pair_thr (low (temperature t)) v) (co2 t)))) (
  pseq (when_some (p_co2_low p) (fun v => set_thr (fun t =>
          mk_thresholds (humidity t) (temperature t)
            (mk_co2_thr v (tubfans_low (co2 t)) (co2_high (co2 t)))))) (
  pseq (when_some (p_co2_high p) (fun v => set_thr (fun t =>
          mk_thresholds (humidity t) (temperature t)
            (mk_co2_thr (co2_low (co2 t)) (tubfans_low (co2 t)) v)))) (
  pseq (when_some (p_fan_cycle p) (fun fc =>
          let d := get_or (fst fc) 15%Z in let i := get_or (snd fc) 60%Z in
          pseq (profile_cycle "relay4" d i) (profile_cycle "relay7" d i))) (
  pseq (when_some (p_light_cycle p) (fun lc =>
          let d := get_or (fst lc) 30%Z in let i := get_or (snd lc) 60%Z in
          pseq (profile_cycle "relay2" d i) (profile_cycle "relay3" d i))) (
  pseq (when_some (p_fan_schedule p) (fun fs =>
          let st := get_or (fst fs) (mk_dtime 0 0) in
          let en := get_or (snd fs) (mk_dtime 23 59) in
          pseq (profile_schedule "relay4" st en) (profile_schedule "relay7" st en))) (
  pseq (when_some (p_light_schedule p) (fun ls =>
          let st := get_or (fst ls) (mk_dtime 0 0) in
          let en := get_or (snd ls) (mk_dtime 23 59) in
          pseq (profile_schedule "relay2" st en) (profile_schedule "relay3" st en))) (
  pseq (when_some (p_humidity_schedule p) (fun hs =>
          let st := get_or (fst hs) (mk_dtime 0 0) in
          let en := get_or (snd hs) (mk_dtime 23 59) in
          profile_schedule "relay5" st en))
       (when_some (p_override_duration p) (fun d => fun m =>
          inr (with_configs m (map (fun q : string * relay_config =>
                                      (fst q, set_override_duration d (snd q)))
                                   (relay_configs m))))))))))))))).

(** [_update_config_from_profile()]: a raised error is logged and the
    changes made before it stay. *)
Definition update_config_from_profile (p : profile) (m : manager) : manager :=
  match profile_steps p m with inl m' | inr m' => m' end.

(** ** Default configuration of [RelayManager.__init__] *)

Definition all_day := mk_schedule (mk_dtime 0 0) (mk_dtime 23 59).

Definition default_relay (nm : string) (p : Z) (deps : list string) (vis : bool)
  (cy : option cycle) : relay_config :=
  mk_relay_config nm p all_day false 0 300 deps vis false cy.

Definition default_configs : configs :=
  [("relay1", default_relay "Main PSU" 18 [] false None);
   ("relay2", default_relay "UV Light" 24 ["relay1"] true (Some (mk_cycle 30 60 0)));
   ("relay3", default_relay "Grow Light" 25 ["relay1"] true (Some (mk_cycle 30 60 0)));
   ("relay4", default_relay "Tub Fans" 6 ["relay1"] true (Some (mk_cycle 15 60 0)));
   ("relay5", default_relay "Humidifiers" 26 ["relay1"] true None);
   ("relay6", default_relay "Heater" 19 [] true None);
   ("relay7", default_relay "IN/OUT Fans" 13 ["relay1"] true (Some (mk_cycle 15 60 0)));
   ("relay8", default_relay "Reserved" 16 [] false None)].

Definition default_thresholds : thresholds :=
  mk_thresholds (mk_pair_thr 50 85) (mk_pair_thr 20 24)
    (mk_co2_thr 1000 1100 1600).

Definition default_manager : manager :=
  mk_manager default_configs default_thresholds.


(** [self.error_threshold] of [SensorManager.__init__] *)
Definition error_threshold : Z := 5.

(** * Properties *)

(** ** Schedule evaluator *)

Definition minutes_of_day (t : dtime) : Z := (60 * hour t + minute t)%Z.

Definition valid_dtime (t : dtime) : Prop := (0 <= minute t < 60)%Z.

Lemma dtime_le_minutes (a b : dtime) :
  valid_dtime a -> valid_dtime b ->
  dtime_le a b = (minutes_of_day a <=? minutes_of_day b)%Z.
Proof.
  unfold valid_dtime, dtime_le, minutes_of_day. intros Ha Hb.
  destruct (Z.ltb_spec (hour a) (hour b)); cbn [orb andb].
  - symmetry. apply Z.leb_le. lia.
  - destruct (Z.eqb_spec (hour a) (hour b)); cbn [orb andb].
    + rewrite e. destruct (Z.leb_spec (minute a) (minute b));
        symmetry; [apply Z.leb_le | apply Z.leb_gt]; lia.
    + symmetry. apply Z.leb_gt. lia.
Qed.

Definition sched_22_06 : relay_config :=
  mk_relay_config "Light" 24 (mk_schedule (mk_dtime 22 0) (mk_dtime 6 0))
    false 0 300 [] true false None.

(** C4: a window with [start <= end] contains exactly the times between
    its ends; a window with [start > end] wraps midnight and contains the
    times from [start] on and the times up to [end]. For 22:00-06:00 the
    times 23:00, 00:00 and 05:59 are in the window and 12:00 is not. *)
Theorem is_in_schedule_window :
  (forall cs relay_id c now,
     lookup relay_id cs = Some c ->
     valid_dtime (start (rschedule c)) -> valid_dtime (end_ (rschedule c)) ->
     valid_dtime now ->
     let s := minutes_of_day (start (rschedule c)) in
     let e := minutes_of_day (end_ (rschedule c)) in
     let n := minutes_of_day now in
     is_in_schedule cs relay_id now =
       Some (if (s <=? e)%Z then ((s <=? n) && (n <=? e))%Z
             else ((s <=? n) || (n <=? e))%Z)) /\
  is_in_schedule [("relay2", sched_22_06)] "relay2" (mk_dtime 23 0) = Some true /\
  is_in_schedule [("relay2", sched_22_06)] "relay2" (mk_dtime 0 0) = Some true /\
  is_in_schedule [("relay2", sched_22_06)] "relay2" (mk_dtime 5 59) = Some true /\
  is_in_schedule [("relay2", sched_22_06)] "relay2" (mk_dtime 12 0) = Some false.
Proof.
  split; [| repeat split; reflexivity].
  intros cs relay_id c now Hl Hs He Hn. cbv zeta.
  unfold is_in_schedule. rewrite Hl. simpl.
  rewrite !dtime_le_minutes by assumption. reflexivity.
Qed.

Lemma is_in_schedule_window_witness :
  is_in_schedule [("relay2", sched_22_06)] "relay2" (mk_dtime 3 15) = Some true.
Proof.
  pose proof (proj1 is_in_schedule_window [("relay2", sched_22_06)] "relay2"
                sched_22_06 (mk_dtime 3 15) eq_refl) as H.
  cbv zeta in H. rewrite H; unfold valid_dtime; simpl; try lia. reflexivity.
Defined.

(** ** Duty-cycle evaluator *)

(** [t mod p] for a positive period [p]: the position of [t] in the period. *)
Definition q_mod (t p : Q) : Q := (t - p * inject_Z (Qfloor (t / p)))%Q.

Definition cycle_30_60 : relay_config :=
  mk_relay_config "UV Light" 24 all_day false 0 300 ["relay1"] true false
    (Some (mk_cycle 30 60 0)).

(** C5: the duty-cycle evaluator is ON iff [(t mod (interval*60)) <
    on_duration*60], a function of [t] and the cycle alone; for 30/60 at an
    epoch second [t] this is [(t mod 3600) < 1800]. A relay without a cycle,
    or not in the table, is OFF. *)
Theorem should_cycle_be_on_phase :
  (forall cs relay_id c cy t,
     lookup relay_id cs = Some c -> rcycle c = Some cy -> (0 < interval cy)%Z ->
     should_cycle_be_on cs relay_id t =
       Some (qlt (q_mod t (inject_Z (interval cy * 60)))
                 (inject_Z (on_duration cy * 60)))) /\
  (forall cs relay_id t,
     match lookup relay_id cs with
     | None => True
     | Some c => rcycle c = None
     end ->
     should_cycle_be_on cs relay_id t = Some false) /\
  (forall z : Z,
     should_cycle_be_on [("relay2", cycle_30_60)] "relay2" (inject_Z z) =
       Some (z mod 3600 <? 1800)%Z).
Proof.
  split; [| split].
  - intros cs relay_id c cy t Hl Hc Hi. unfold should_cycle_be_on.
    rewrite Hl, Hc. unfold py_fmod.
    destruct (Qeq_bool (inject_Z (interval cy * 60)) 0) eqn:E.
    + apply Qeq_bool_eq in E. unfold Qeq in E. simpl in E. lia.
    + reflexivity.
  - intros cs relay_id t H. unfold should_cycle_be_on.
    destruct (lookup relay_id cs) as [c|]; [rewrite H|]; reflexivity.
  - intros z.
    change (should_cycle_be_on [("relay2", cycle_30_60)] "relay2" (inject_Z z))
      with (Some (qlt (inject_Z z - inject_Z 3600 *
                         inject_Z (Qfloor (inject_Z z / inject_Z 3600)))
                      (inject_Z 1800))).
    f_equal.
    rewrite <- (Zdiv_Qdiv z 3600).
    assert (Hm : (inject_Z z - inject_Z 3600 * inject_Z (z / 3600) ==
                 inject_Z (z mod 3600))%Q).
    { unfold Qminus. rewrite <- inject_Z_mult, <- inject_Z_opp, <- inject_Z_plus.
      apply (proj2 (inject_Z_injective _ _)).
      rewrite Z.mod_eq by lia. reflexivity. }
    unfold qlt. 
    destruct (Z.ltb_spec (z mod 3600) 1800) as [Hlt|Hge].
    + apply negb_true_iff. apply not_true_is_false. intro Hle.
      apply Qle_bool_iff in Hle. rewrite Hm in Hle.
      rewrite <- Zle_Qle in Hle. simpl in Hle. lia.
    + apply negb_false_iff. apply Qle_bool_iff. rewrite Hm.
      rewrite <- Zle_Qle. simpl. lia.
Qed.

Lemma should_cycle_be_on_phase_witness :
  should_cycle_be_on [("relay2", cycle_30_60)] "relay2" (4000 # 1) =
    Some (qlt (q_mod (4000 # 1) (inject_Z 3600)) (inject_Z 1800)).
Proof.
  exact (proj1 should_cycle_be_on_phase [("relay2", cycle_30_60)] "relay2"
           cycle_30_60 (mk_cycle 30 60 0) (4000 # 1) eq_refl eq_refl
           (ltac:(reflexivity) : (0 < 60)%Z)).
Defined.

(** ** Configuration API *)

(** The stored [{low, high}] pair of a threshold kind. *)
Definition stored_pair (t : thresholds) (threshold_type : string) : Q * Q :=
  if String.eqb threshold_type "temperature" then
    (low (temperature t), high (temperature t))
  else if String.eqb threshold_type "humidity" then
    (low (humidity t), high (humidity t))
  else (co2_low (co2 t), co2_high (co2 t)).

Definition threshold_kinds : list string := ["temperature"; "humidity"; "co2"].

(** C7: for each threshold kind, a non-numeric argument or [low >= high]
    makes [set_thresholds] fail with every threshold unchanged; numeric
    [low < high] makes it succeed and store [{low, high}]. *)
Theorem set_thresholds_validation :
  forall m threshold_type lo hi,
    In threshold_type threshold_kinds ->
    (py_is_number lo = false \/ py_is_number hi = false \/
     (py_num hi <= py_num lo)%Q ->
     set_thresholds m threshold_type lo hi = (false, m)) /\
    (py_is_number lo = true -> py_is_number hi = true ->
     (py_num lo < py_num hi)%Q ->
     fst (set_thresholds m threshold_type lo hi) = true /\
     stored_pair (mthresholds (snd (set_thresholds m threshold_type lo hi)))
       threshold_type = (py_num lo, py_num hi)).
Proof.
  intros m threshold_type lo hi Hin.
  assert (Hk : existsb (String.eqb threshold_type) threshold_kinds = true).
  { apply existsb_exists. exists threshold_type. split; [exact Hin|].
    apply String.eqb_refl. }
  unfold set_thresholds. unfold threshold_kinds in Hk. rewrite Hk. simpl negb.
  cbv iota. split.
  - intros [Hl | [Hh | Hle]].
    + rewrite Hl. reflexivity.
    + rewrite Hh, andb_false_r. reflexivity.
    + destruct (py_is_number lo && py_is_number hi); [|reflexivity]. simpl.
      unfold qle. rewrite (proj2 (Qle_bool_iff _ _) Hle). reflexivity.
  - intros Hl Hh Hlt. rewrite Hl, Hh. simpl.
    unfold qle. destruct (Qle_bool (py_num hi) (py_num lo)) eqn:E.
    + apply Qle_bool_iff in E. exfalso. apply (Qlt_not_le _ _ Hlt E).
    + simpl. split; [reflexivity|].
      unfold threshold_kinds in Hin. simpl in Hin.
      destruct Hin as [<- | [<- | [<- | []]]]; reflexivity.
Qed.

Lemma set_thresholds_validation_witness :
  set_thresholds default_manager "temperature" (PInt 25) (PInt 20) =
    (false, default_manager).
Proof.
  apply (proj1 (set_thresholds_validation default_manager "temperature"
                  (PInt 25) (PInt 20) (or_introl eq_refl))).
  right. right. unfold Qle. simpl. lia.
Defined.

(** C9: a successful [set_thresholds('co2', low, high)] changes only the
    CO2 [low] and [high] values: the CO2 [tubfans_low] trigger, the
    temperature and humidity pairs and the relay table stay as they were. *)
Theorem set_thresholds_co2_frame :
  forall m lo hi m',
    set_thresholds m "co2" lo hi = (true, m') ->
    tubfans_low (co2 (mthresholds m')) = tubfans_low (co2 (mthresholds m)) /\
    temperature (mthresholds m') = temperature (mthresholds m) /\
    humidity (mthresholds m') = humidity (mthresholds m) /\
    relay_configs m' = relay_configs m /\
    co2_low (co2 (mthresholds m')) = py_num lo /\
    co2_high (co2 (mthresholds m')) = py_num hi.
Proof.
  intros m lo hi m' H. unfold set_thresholds in H. simpl in H.
  destruct (py_is_number lo && py_is_number hi); simpl in H; [|discriminate].
  destruct (qle (py_num hi) (py_num lo)); [discriminate|].
  injection H as <-. simpl. repeat split.
Qed.

Lemma set_thresholds_co2_frame_witness :
  tubfans_low (co2 (mthresholds
    (snd (set_thresholds default_manager "co2" (PInt 900) (PFloat (1500 # 1)))))) = 1100.
Proof.
  apply (set_thresholds_co2_frame default_manager (PInt 900) (PFloat (1500 # 1))).
  reflexivity.
Defined.

Lemma lookup_update_other (k k' : string) f cs :
  k <> k' -> lookup k (update k' f cs) = lookup k cs.
Proof.
  intros Hne. induction cs as [| [k0 v] cs IH]; simpl; [reflexivity|].
  destruct (String.eqb_spec k' k0) as [<-|]; simpl.
  - apply String.eqb_neq in Hne. rewrite Hne. reflexivity.
  - destruct (String.eqb k k0); [reflexivity | exact IH].
Qed.

Lemma lookup_update_same (k : string) f cs :
  lookup k (update k f cs) = option_map f (lookup k cs).
Proof.
  induction cs as [| [k0 v] cs IH]; simpl; [reflexivity|].
  destruct (String.eqb_spec k k0) as [<-|]; simpl.
  - rewrite String.eqb_refl. reflexivity.
  - apply String.eqb_neq in n. rewrite n. exact IH.
Qed.

(** C10: [set_cycle] succeeds exactly for an existing relay and two
    Python [int] arguments (a [bool] is an [int] in Python) with
    [0 < on_duration <= interval]; a non-[int] argument, such as a float,
    is rejected whatever its value. On failure nothing changes. *)
Theorem set_cycle_validation :
  forall m relay_id on_dur intv,
    (fst (set_cycle m relay_id on_dur intv) = true <->
       lookup relay_id (relay_configs m) <> None /\
       py_is_int on_dur = true /\ py_is_int intv = true /\
       (0 < py_int_val on_dur <= py_int_val intv)%Z) /\
    (fst (set_cycle m relay_id on_dur intv) = false ->
       snd (set_cycle m relay_id on_dur intv) = m) /\
    (py_is_int on_dur = false \/ py_is_int intv = false ->
       set_cycle m relay_id on_dur intv = (false, m)) /\
    (fst (set_cycle m relay_id on_dur intv) = true ->
       exists c, lookup relay_id (relay_configs (snd (set_cycle m relay_id on_dur intv)))
                   = Some c /\
                 option_map on_duration (rcycle c) = Some (py_int_val on_dur) /\
                 option_map interval (rcycle c) = Some (py_int_val intv)).
Proof.
  intros m relay_id on_dur intv. unfold set_cycle.
  destruct (lookup relay_id (relay_configs m)) as [c|] eqn:Hl.
  2:{ simpl. repeat split; try discriminate; intros [[] _]; reflexivity. }
  destruct (py_is_int on_dur) eqn:Ho; destruct (py_is_int intv) eqn:Hi;
    simpl; try (repeat split; try discriminate; intros [_ [? [? _]]]; discriminate).
  destruct (Z.leb_spec (py_int_val on_dur) 0); simpl.
  { repeat split; try discriminate. intros [_ [_ [_ ?]]]; lia. }
  destruct (Z.leb_spec (py_int_val intv) 0); simpl.
  { repeat split; try discriminate. intros [_ [_ [_ ?]]]; lia. }
  destruct (Z.ltb_spec (py_int_val intv) (py_int_val on_dur)); simpl.
  { repeat split; try discriminate. intros [_ [_ [_ ?]]]; lia. }
  repeat split; try discriminate; try lia.
  intros _. exists (set_rcycle (Some match rcycle c with
                                | Some cy => mk_cycle (py_int_val on_dur) (py_int_val intv) (last_toggle cy)
                                | None => mk_cycle (py_int_val on_dur) (py_int_val intv) 0
                                end) c).
    rewrite lookup_update_same, Hl. simpl.
    destruct (rcycle c); repeat split.
Qed.

Lemma set_cycle_validation_witness :
  set_cycle default_manager "relay2" (PFloat (10 # 1)) (PInt 60) =
    (false, default_manager).
Proof.
  apply (proj1 (proj2 (proj2 (set_cycle_validation default_manager "relay2"
                                (PFloat (10 # 1)) (PInt 60))))).
  left. reflexivity.
Defined.

(** ** Sensor averages *)

(** Number of readings that are not the "no data" value [0]. *)
Definition count_nonzero (xs : list Q) : nat :=
  List.length (filter (fun x => negb (Qeq_bool x 0)) xs).

Lemma average_nonzero_three (a b c : Q) :
  average_nonzero [a; b; c] ==
    (if (count_nonzero [a; b; c] =? 0)%nat then 0
     else (a + b + c) / inject_Z (Z.of_nat (count_nonzero [a; b; c])))%Q.
Proof.
  unfold average_nonzero, count_nonzero, q_sum. simpl filter.
  destruct (Qeq_bool a 0) eqn:Ha; destruct (Qeq_bool b 0) eqn:Hb;
    destruct (Qeq_bool c 0) eqn:Hc; simpl;
    repeat match goal with
    | H : Qeq_bool _ 0 = true |- _ => apply Qeq_bool_eq in H; rewrite H; clear H
    end;
    try reflexivity; unfold Qdiv; apply Qmult_comp; try reflexivity; ring.
Qed.

(** C8: the average temperature and humidity leave out the readings equal
    to the "no data" value [0]: with at least one non-zero reading they are
    the mean of the non-zero readings (their sum, the zeros adding nothing,
    over their number); with every reading [0] they are the neutral value
    [0] and no division takes place. *)
Theorem averages_exclude_no_data :
  forall sd : sensor_data,
    let temps := [d_temperature (upper_dht sd); d_temperature (lower_dht sd);
                  s_temperature (scd40 sd)] in
    let hums := [d_humidity (upper_dht sd); d_humidity (lower_dht sd);
                 s_humidity (scd40 sd)] in
    (get_average_temperature sd ==
       (if (count_nonzero temps =? 0)%nat then 0
        else (q_sum temps) / inject_Z (Z.of_nat (count_nonzero temps))))%Q /\
    (get_average_humidity sd ==
       (if (count_nonzero hums =? 0)%nat then 0
        else (q_sum hums) / inject_Z (Z.of_nat (count_nonzero hums))))%Q /\
    ((count_nonzero temps = 0)%nat -> get_average_temperature sd = 0) /\
    ((count_nonzero hums = 0)%nat -> get_average_humidity sd = 0).
Proof.
  intros sd temps hums.
  assert (Hz : forall xs, (count_nonzero xs = 0)%nat -> average_nonzero xs = 0).
  { intros xs H. unfold count_nonzero in H. unfold average_nonzero.
    destruct (filter _ xs); [reflexivity | discriminate]. }
  split; [| split; [| split]].
  - unfold get_average_temperature. rewrite average_nonzero_three.
    subst temps. unfold q_sum. simpl fold_left.
    destruct (count_nonzero _ =? 0)%nat; [reflexivity|].
    unfold Qdiv. apply Qmult_comp; [ring | reflexivity].
  - unfold get_average_humidity. rewrite average_nonzero_three.
    subst hums. unfold q_sum. simpl fold_left.
    destruct (count_nonzero _ =? 0)%nat; [reflexivity|].
    unfold Qdiv. apply Qmult_comp; [ring | reflexivity].
  - apply Hz.
  - apply Hz.
Qed.

Lemma averages_exclude_no_data_witness :
  get_average_temperature
    (mk_sensor_data (mk_dht 0 0) (mk_dht 0 0) (mk_scd 0 0 0)) = 0.
Proof.
  apply (averages_exclude_no_data
           (mk_sensor_data (mk_dht 0 0) (mk_dht 0 0) (mk_scd 0 0 0))).
  reflexivity.
Defined.

(** ** Structure of an automation tick *)




















(** ** Override expiry *)







(** ** Overridden relays during a tick *)













(** ** Alternating light pair *)





(** ** Cascading shutdown of [set_relay_state(r, False)] *)

































(** * Further properties of the relay API *)
















(** * Further properties of the automation tick *)

Section UnusedThresholds.

Variables thr thr' : thresholds.
Hypothesis Hhl : low (humidity thr) = low (humidity thr').
Hypothesis Htl : low (temperature thr) = low (temperature thr').
Hypothesis Hct : tubfans_low (co2 thr) = tubfans_low (co2 thr').
Hypothesis Hch : co2_high (co2 thr) = co2_high (co2 thr').

Lemma should_relay_be_on_thr cs rid now t avg_temp avg_humidity co2v :
  should_relay_be_on thr cs rid now t avg_temp avg_humidity co2v =
  should_relay_be_on thr' cs rid now t avg_temp avg_humidity co2v.
Proof. unfold should_relay_be_on. rewrite Hhl, Htl, Hct, Hch. reflexivity. Qed.

Lemma relay1_needed_thr now avg_temp avg_humidity co2v clk cs items :
  relay1_needed thr now avg_temp avg_humidity co2v clk cs items =
  relay1_needed thr' now avg_temp avg_humidity co2v clk cs items.
Proof.
  induction items as [|[rid c] items IH]; cbn [relay1_needed]; [reflexivity|].
  rewrite should_relay_be_on_thr, IH. reflexivity.
Qed.

Lemma process_relays_thr now avg_temp avg_humidity co2v clk ids cs :
  process_relays thr now avg_temp avg_humidity co2v clk ids cs =
  process_relays thr' now avg_temp avg_humidity co2v clk ids cs.
Proof.
  revert cs. induction ids as [|rid ids IH]; intros cs; cbn [process_relays]; [reflexivity|].
  destruct (String.eqb rid "relay1"); [apply IH|].
  destruct (lookup rid cs) as [c|]; cbn [obind]; [|reflexivity].
  rewrite should_relay_be_on_thr.
  destruct (should_relay_be_on thr' cs rid now (clk rid) avg_temp avg_humidity co2v);
    cbn [obind]; [|reflexivity].
  destruct (dependencies_met cs (dependencies c)); cbn [obind]; [apply IH|reflexivity].
Qed.

End UnusedThresholds.

(** The tick never reads the [high] humidity and temperature thresholds nor
    the CO2 [low] threshold: two managers that differ only there give the
    same relay table after a tick (or both fail). *)
Theorem tick_ignores_unused_thresholds m sd now ts clk1 clk2 hh th cl :
  let thr := mthresholds m in
  let m2 := mk_manager (relay_configs m)
              (mk_thresholds (mk_pair_thr (low (humidity thr)) hh)
                 (mk_pair_thr (low (temperature thr)) th)
                 (mk_co2_thr cl (tubfans_low (co2 thr)) (co2_high (co2 thr)))) in
  option_map relay_configs (process_automation m sd now ts clk1 clk2) =
  option_map relay_configs (process_automation m2 sd now ts clk1 clk2).
Proof.
  intros thr m2. unfold process_automation. cbn [m2 relay_configs mthresholds].
  set (thr2 := mk_thresholds (mk_pair_thr (low (humidity thr)) hh)
                 (mk_pair_thr (low (temperature thr)) th)
                 (mk_co2_thr cl (tubfans_low (co2 thr)) (co2_high (co2 thr)))).
  assert (H1 : low (humidity thr) = low (humidity thr2)) by reflexivity.
  assert (H2 : low (temperature thr) = low (temperature thr2)) by reflexivity.
  assert (H3 : tubfans_low (co2 thr) = tubfans_low (co2 thr2)) by reflexivity.
  assert (H4 : co2_high (co2 thr) = co2_high (co2 thr2)) by reflexivity.
  rewrite (relay1_needed_thr thr thr2 H1 H2 H3 H4).
  match goal with |- option_map _ (obind ?x _) = _ => destruct x as [needed|] end;
    cbn [obind]; [|reflexivity].
  match goal with |- option_map _ (obind ?x _) = _ => destruct x as [cs1|] end;
    cbn [obind]; [|reflexivity].
  rewrite (process_relays_thr thr thr2 H1 H2 H3 H4).
  match goal with |- option_map _ (obind ?x _) = _ => destruct x as [cs2|] end;
    cbn [obind]; [|reflexivity].
  match goal with |- option_map _ (obind ?x _) = _ => destruct x as [cs3|] end;
    cbn [obind]; [|reflexivity].
  match goal with |- option_map _ (obind ?x _) = _ => destruct x as [cs4|] end;
    reflexivity.
Qed.









(** ** Schedule strings: [set_schedule] and [_is_in_schedule] *)

(** A string of one or two ASCII digits and its decimal value. *)
Definition digit_str (d : list ascii) (v : Z) : Prop :=
  (exists a, d = [a] /\ is_digit a = true /\ v = digit_val a) \/
  (exists a b, d = [a; b] /\ is_digit a = true /\ is_digit b = true /\
               v = (10 * digit_val a + digit_val b)%Z).

Lemma is_digit_bounds a :
  is_digit a = true -> (48 <= nat_of_ascii a <= 57)%nat.
Proof.
  unfold is_digit. intros H. apply andb_prop in H as [H1 H2].
  apply Nat.leb_le in H1, H2. lia.
Qed.

Lemma digit_val_bounds a : is_digit a = true -> (0 <= digit_val a <= 9)%Z.
Proof. intros H. apply is_digit_bounds in H. unfold digit_val. lia. Qed.

Lemma in_range_digit lo hi a :
  (48 <= lo)%nat -> (hi <= 57)%nat -> in_range lo hi a = true -> is_digit a = true.
Proof.
  unfold in_range, is_digit. intros Hl Hh H. apply andb_prop in H as [H1 H2].
  apply Nat.leb_le in H1, H2. apply andb_true_intro; split; apply Nat.leb_le; lia.
Qed.

Lemma in_range_val lo hi a :
  in_range lo hi a = true -> (Z.of_nat lo - 48 <= digit_val a <= Z.of_nat hi - 48)%Z.
Proof.
  unfold in_range, digit_val. intros H. apply andb_prop in H as [H1 H2].
  apply Nat.leb_le in H1, H2. lia.
Qed.

Lemma ascii_eqb_far a c :
  (nat_of_ascii a <> nat_of_ascii c)%nat -> Ascii.eqb a c = false.
Proof.
  intros H. destruct (Ascii.eqb_spec a c) as [->|]; [congruence | reflexivity].
Qed.

Lemma digit_not_colon a : is_digit a = true -> Ascii.eqb a ":"%char = false.
Proof. intros H. apply is_digit_bounds in H. apply ascii_eqb_far. cbn. lia. Qed.

Lemma digit_not_minus a : is_digit a = true -> Ascii.eqb a "-"%char = false.
Proof. intros H. apply is_digit_bounds in H. apply ascii_eqb_far. cbn. lia. Qed.

Lemma digit_not_plus a : is_digit a = true -> Ascii.eqb a "+"%char = false.
Proof. intros H. apply is_digit_bounds in H. apply ascii_eqb_far. cbn. lia. Qed.

Lemma digit_not_ws a : is_digit a = true -> is_ws a = false.
Proof.
  intros H. apply is_digit_bounds in H. unfold is_ws, in_range.
  apply orb_false_intro; apply andb_false_iff;
    right; apply Nat.leb_gt; lia.
Qed.

Lemma hour_alts_spec s h r :
  In (h, r) (hour_alts s) ->
  exists d, s = app d r /\ digit_str d h /\ (0 <= h <= 23)%Z.
Proof.
  unfold hour_alts. intros Hin.
  repeat (apply in_app_or in Hin; destruct Hin as [Hin | Hin]).
  - destruct s as [| a [| b s']]; try contradiction.
    destruct (Ascii.eqb a "2"%char && in_range 48 51 b) eqn:E; [|contradiction].
    destruct Hin as [Heq | []]. apply pair_equal_spec in Heq as [<- <-].
    apply andb_prop in E as [Ea Eb]. apply Ascii.eqb_eq in Ea as ->.
    pose proof (in_range_val _ _ _ Eb) as Vb.
    apply in_range_digit in Eb; [| lia | lia].
    exists ["2"%char; b]. split; [reflexivity|]. split.
    + right. exists "2"%char, b.
      split; [reflexivity|]. split; [reflexivity|]. split; [exact Eb|].
      change (digit_val "2"%char) with 2%Z. lia.
    + cbn in Vb. lia.
  - destruct s as [| a [| b s']]; try contradiction.
    destruct (in_range 48 49 a && is_digit b) eqn:E; [|contradiction].
    destruct Hin as [Heq | []]. apply pair_equal_spec in Heq as [<- <-].
    apply andb_prop in E as [Ea Eb].
    pose proof (in_range_val _ _ _ Ea) as Va.
    pose proof (digit_val_bounds _ Eb) as Vb.
    apply in_range_digit in Ea; [| lia | lia].
    exists [a; b]. split; [reflexivity|]. split.
    + right. exists a, b. repeat split; assumption.
    + cbn in Va. lia.
  - destruct s as [| a s']; [contradiction|].
    destruct (is_digit a) eqn:E; [|contradiction].
    destruct Hin as [Heq | []]. apply pair_equal_spec in Heq as [<- <-].
    pose proof (digit_val_bounds _ E) as Va.
    exists [a]. split; [reflexivity|]. split.
    + left. exists a. repeat split; assumption.
    + lia.
Qed.

Lemma minute_alts_spec s m r :
  In (m, r) (minute_alts s) ->
  exists d, s = app d r /\ digit_str d m /\ (0 <= m <= 59)%Z.
Proof.
  unfold minute_alts. intros Hin.
  apply in_app_or in Hin; destruct Hin as [Hin | Hin].
  - destruct s as [| a [| b s']]; try contradiction.
    destruct (in_range 48 53 a && is_digit b) eqn:E; [|contradiction].
    destruct Hin as [Heq | []]. apply pair_equal_spec in Heq as [<- <-].
    apply andb_prop in E as [Ea Eb].
    pose proof (in_range_val _ _ _ Ea) as Va.
    pose proof (digit_val_bounds _ Eb) as Vb.
    apply in_range_digit in Ea; [| lia | lia].
    exists [a; b]. split; [reflexivity|]. split.
    + right. exists a, b. repeat split; assumption.
    + cbn in Va. lia.
  - destruct s as [| a s']; [contradiction|].
    destruct (is_digit a) eqn:E; [|contradiction].
    destruct Hin as [Heq | []]. apply pair_equal_spec in Heq as [<- <-].
    pose proof (digit_val_bounds _ E) as Va.
    exists [a]. split; [reflexivity|]. split.
    + left. exists a. repeat split; assumption.
    + lia.
Qed.

Lemma hm_match_spec hs h m r :
  hm_match hs = Some (h, m, r) ->
  exists r0, In (h, ":"%char :: r0) hs /\ In (m, r) (minute_alts r0).
Proof.
  induction hs as [| [h0 r1] hs IH]; cbn [hm_match]; [discriminate|].
  intros H.
  destruct r1 as [| c r'].
  - destruct (IH H) as [r0 [H1 H2]]. exists r0. split; [right|]; assumption.
  - destruct (Ascii.eqb_spec c ":"%char) as [->|Hc].
    + destruct (minute_alts r') as [| [m0 r0] ms] eqn:Em.
      * destruct (IH H) as [r0 [H1 H2]]. exists r0. split; [right|]; assumption.
      * injection H as <- <- <-. exists r'. split; [left; reflexivity|].
        rewrite Em. left. reflexivity.
    + destruct (IH H) as [r0 [H1 H2]]. exists r0. split; [right|]; assumption.
Qed.

Lemma drop_ws_digit a r : is_digit a = true -> drop_ws (a :: r) = a :: r.
Proof. intros Ha. cbn [drop_ws]. rewrite (digit_not_ws _ Ha). reflexivity. Qed.

Lemma py_int_str_digit_str d v : digit_str d v -> py_int_str d = Some v.
Proof.
  intros [[a [-> [Ha ->]]] | [a [b [-> [Ha [Hb ->]]]]]]; unfold py_int_str.
  - rewrite (drop_ws_digit _ [] Ha). cbn [rev app].
    rewrite (drop_ws_digit _ [] Ha). cbn [rev app].
    rewrite (digit_not_minus _ Ha), (digit_not_plus _ Ha), Ha.
    cbn [option_map parse_digits]. f_equal. lia.
  - rewrite (drop_ws_digit _ [b] Ha). cbn [rev app].
    rewrite (drop_ws_digit _ [a] Hb). cbn [rev app].
    rewrite (digit_not_minus _ Ha), (digit_not_plus _ Ha), Ha.
    cbn [option_map parse_digits]. rewrite Hb. cbn [option_map parse_digits].
    f_equal. lia.
Qed.

Lemma split_colon_digit_str d v r :
  digit_str d v -> split_colon (app d r) =
  match split_colon r with p :: ps => (app d p) :: ps | [] => [d] end.
Proof.
  intros [[a [-> [Ha _]]] | [a [b [-> [Ha [Hb _]]]]]]; cbn [app split_colon].
  - rewrite (digit_not_colon _ Ha). reflexivity.
  - rewrite (digit_not_colon _ Ha), (digit_not_colon _ Hb).
    destruct (split_colon r); reflexivity.
Qed.

Lemma split_colon_colon r : split_colon (":"%char :: r) = [] :: split_colon r.
Proof. reflexivity. Qed.

Lemma split_colon_digit_only d v : digit_str d v -> split_colon d = [d].
Proof.
  intros D. rewrite <- (app_nil_r d) at 1. rewrite (split_colon_digit_str _ _ _ D).
  cbn. rewrite app_nil_r. reflexivity.
Qed.

Lemma schedule_time_of_strptime_hm s t :
  strptime_hm s = Some t -> schedule_time_of s = Some t.
Proof.
  unfold strptime_hm, schedule_time_of.
  destruct (hm_match (hour_alts (list_ascii_of_string s))) as [[[h m] [|x r]]|] eqn:E;
    intros H; try discriminate.
  injection H as <-.
  apply hm_match_spec in E as [r0 [Hh Hm]].
  apply hour_alts_spec in Hh as [dh [Hs [Dh Bh]]].
  apply minute_alts_spec in Hm as [dm [Hr0 [Dm Bm]]].
  rewrite app_nil_r in Hr0. subst r0.
  rewrite Hs, (split_colon_digit_str _ _ _ Dh), split_colon_colon,
    (split_colon_digit_only _ _ Dm).
  cbn [app]. rewrite app_nil_r.
  rewrite (py_int_str_digit_str _ _ Dh), (py_int_str_digit_str _ _ Dm). cbn [obind].
  replace ((0 <=? h) && (h <=? 23) && (0 <=? m) && (m <=? 59))%Z with true.
  - reflexivity.
  - symmetry. repeat (apply andb_true_intro; split); apply Z.leb_le; lia.
Qed.

(** [set_schedule] validates a time with [strptime("%H:%M")], and
    [_is_in_schedule] later reads it back with
    [map(int, s.split(':'))] and [dt_time(h, m)]: every string the first
    accepts, the second reads without raising, as the same time. *)
Theorem strptime_hm_schedule_time s t :
  strptime_hm s = Some t -> schedule_time_of s = Some t.
Proof. exact (schedule_time_of_strptime_hm s t). Qed.

Lemma strptime_hm_schedule_time_witness :
  strptime_hm "7:05" = Some (mk_dtime 7 5) /\ schedule_time_of "7:05" = Some (mk_dtime 7 5).
Proof.
  split; [reflexivity|]. apply strptime_hm_schedule_time. reflexivity.
Defined.

(** [set_schedule] on an existing relay and two valid times replaces that
    relay's schedule and nothing else; the times it stores are what
    [_is_in_schedule] reads back. On a missing relay or a bad time it
    returns [False] and changes nothing. *)
Theorem set_schedule_spec cs rid s e b cs' :
  set_schedule cs rid s e = (b, cs') ->
  (b = false /\ cs' = cs /\
   (lookup rid cs = None \/ strptime_hm s = None \/ strptime_hm e = None)) \/
  (b = true /\ exists c st en,
     lookup rid cs = Some c /\
     schedule_time_of s = Some st /\ schedule_time_of e = Some en /\
     lookup rid cs' = Some (set_rschedule (mk_schedule st en) c) /\
     forall x, x <> rid -> lookup x cs' = lookup x cs).
Proof.
  unfold set_schedule. destruct (lookup rid cs) as [c|] eqn:El.
  - destruct (strptime_hm s) as [st|] eqn:Es; destruct (strptime_hm e) as [en|] eqn:Ee;
      intros H; injection H as <- <-.
    + right. split; [reflexivity|]. exists c, st, en.
      split; [reflexivity|].
      split; [apply schedule_time_of_strptime_hm; exact Es|].
      split; [apply schedule_time_of_strptime_hm; exact Ee|].
      split.
      * rewrite lookup_update_same, El. reflexivity.
      * intros x Hx. apply lookup_update_other. exact Hx.
    + left. auto.
    + left. auto.
    + left. auto.
  - intros H. injection H as <- <-. left. auto.
Qed.

Lemma set_schedule_spec_witness :
  let r := set_schedule default_configs "relay2" "6:30" "23:5" in
  r = (fst r, snd r) /\
  ((fst r = false /\ snd r = default_configs /\
    (lookup "relay2" default_configs = None \/ strptime_hm "6:30" = None \/
     strptime_hm "23:5" = None)) \/
   (fst r = true /\ exists c st en,
      lookup "relay2" default_configs = Some c /\
      schedule_time_of "6:30" = Some st /\ schedule_time_of "23:5" = Some en /\
      lookup "relay2" (snd r) = Some (set_rschedule (mk_schedule st en) c) /\
      forall x, x <> "relay2" -> lookup x (snd r) = lookup x default_configs)).
Proof.
  intros r. split; [reflexivity|].
  apply (set_schedule_spec default_configs "relay2" "6:30" "23:5" (fst r) (snd r)).
  reflexivity.
Defined.

(** ** Profile updates: [_update_config_from_profile] *)

(** The manager a statement sequence leaves behind, raised or not. *)
Definition run (s : pstep) (m : manager) : manager :=
  match s m with inl m' | inr m' => m' end.

Section Preserve.
Variable R : manager -> manager -> Prop.
Hypothesis R_refl : forall m, R m m.
Hypothesis R_trans : forall m1 m2 m3, R m1 m2 -> R m2 m3 -> R m1 m3.

Definition preserves (s : pstep) : Prop := forall m, R m (run s m).

Lemma pseq_preserves s1 s2 :
  preserves s1 -> preserves s2 -> preserves (pseq s1 s2).
Proof.
  intros H1 H2 m. specialize (H1 m). unfold run, pseq in *.
  destruct (s1 m) as [m1|m1]; [exact H1|].
  apply (R_trans _ m1); [exact H1 | exact (H2 m1)].
Qed.

Lemma when_some_preserves {A} (o : option A) (f : A -> pstep) :
  (forall a, preserves (f a)) -> preserves (when_some o f).
Proof. intros H. destruct o as [a|]; [exact (H a)|]. intros m. apply R_refl. Qed.

Lemma set_thr_preserves f :
  (forall m, R m (mk_manager (relay_configs m) (f (mthresholds m)))) ->
  preserves (set_thr f).
Proof. intros H m. exact (H m). Qed.
End Preserve.

(** The part of a relay entry that a profile update does not touch. *)
Definition keep_part (c : relay_config)
  : string * Z * bool * Q * list string * bool * bool :=
  (name c, pin c, override c, override_until c, dependencies c, visible c, state c).

(** Two managers agree, for the relays satisfying [P], on the projection [f]
    of the entries (and on which of these relays exist). *)
Definition same_on {X} (P : string -> Prop) (f : relay_config -> X)
  (m m' : manager) : Prop :=
  forall x, P x -> option_map f (lookup x (relay_configs m')) =
                   option_map f (lookup x (relay_configs m)).

Lemma same_on_refl {X} P (f : relay_config -> X) m : same_on P f m m.
Proof. intros x _. reflexivity. Qed.

Lemma same_on_trans {X} P (f : relay_config -> X) m1 m2 m3 :
  same_on P f m1 m2 -> same_on P f m2 m3 -> same_on P f m1 m3.
Proof. intros H1 H2 x Hx. rewrite (H2 x Hx). exact (H1 x Hx). Qed.

Lemma lookup_map_snd g cs x :
  lookup x (map (fun q : string * relay_config => (fst q, g (snd q))) cs) =
  option_map g (lookup x cs).
Proof.
  induction cs as [|[k c] cs IH]; simpl; [reflexivity|].
  destruct (String.eqb x k); [reflexivity|exact IH].
Qed.

Lemma same_on_update {X} P (f : relay_config -> X) rid g m :
  (P rid -> forall c, f (g c) = f c) ->
  same_on P f m (with_configs m (update rid g (relay_configs m))).
Proof.
  intros Hg x Hx. cbn [with_configs relay_configs].
  destruct (String.eqb_spec x rid) as [->|Hne].
  - rewrite lookup_update_same. destruct (lookup rid (relay_configs m)); [|reflexivity].
    cbn. rewrite (Hg Hx). reflexivity.
  - rewrite lookup_update_other by exact Hne. reflexivity.
Qed.

Lemma profile_cycle_preserves {X} P (f : relay_config -> X) rid d i :
  (P rid -> forall c y, f (set_rcycle y c) = f c) ->
  preserves (same_on P f) (profile_cycle rid d i).
Proof.
  intros Hg m. unfold run, profile_cycle.
  destruct (lookup rid (relay_configs m)) as [c|]; [|apply same_on_refl].
  destruct (rcycle c); [|apply same_on_refl].
  apply same_on_update. intros HP c'. apply Hg. exact HP.
Qed.

Lemma profile_schedule_preserves {X} P (f : relay_config -> X) rid st en :
  (P rid -> forall c s, f (set_rschedule s c) = f c) ->
  preserves (same_on P f) (profile_schedule rid st en).
Proof.
  intros Hg m. unfold run, profile_schedule.
  destruct (lookup rid (relay_configs m)); [|apply same_on_refl].
  apply same_on_update. intros HP c'. apply Hg. exact HP.
Qed.

Lemma override_duration_preserves {X} P (f : relay_config -> X) d :
  (forall c, f (set_override_duration d c) = f c) ->
  preserves (same_on P f) (fun m =>
    inr (with_configs m (map (fun q : string * relay_config =>
                                (fst q, set_override_duration d (snd q)))
                             (relay_configs m)))).
Proof.
  intros Hg m x _. unfold run. cbn [with_configs relay_configs].
  rewrite lookup_map_snd. destruct (lookup x (relay_configs m)); [|reflexivity].
  cbn. rewrite Hg. reflexivity.
Qed.

Lemma set_thr_same_on {X} P (f : relay_config -> X) g :
  preserves (same_on P f) (set_thr g).
Proof. apply set_thr_preserves. intros m x _. reflexivity. Qed.

Ltac preserve_steps Rrefl Rtrans :=
  repeat first
    [ apply (pseq_preserves _ Rtrans)
    | apply (when_some_preserves _ Rrefl); intros ?; cbv beta zeta ].

(** Whatever the profile holds, and even when one of its cycle updates
    raises, [_update_config_from_profile] neither adds nor removes a relay
    and never changes a relay's name, pin, dependencies, visibility, state or
    override. *)
Theorem update_config_from_profile_keeps p m :
  forall x, option_map keep_part (lookup x (relay_configs (update_config_from_profile p m))) =
            option_map keep_part (lookup x (relay_configs m)).
Proof.
  intros x.
  assert (H : preserves (same_on (fun _ => True) keep_part) (profile_steps p)).
  { unfold profile_steps.
    preserve_steps (@same_on_refl _ (fun _ => True) keep_part)
                   (@same_on_trans _ (fun _ => True) keep_part).
    all: first
      [ apply set_thr_same_on
      | apply profile_cycle_preserves; intros; reflexivity
      | apply profile_schedule_preserves; intros; reflexivity
      | apply override_duration_preserves; intros; reflexivity ]. }
  exact (H m x I).
Qed.

Definition same_thresholds (m m' : manager) : Prop := mthresholds m' = mthresholds m.

Lemma profile_cycle_same_thresholds rid d i :
  preserves same_thresholds (profile_cycle rid d i).
Proof.
  intros m. unfold run, profile_cycle, same_thresholds.
  destruct (lookup rid (relay_configs m)) as [c|]; [|reflexivity].
  destruct (rcycle c); reflexivity.
Qed.

Lemma profile_schedule_same_thresholds rid st en :
  preserves same_thresholds (profile_schedule rid st en).
Proof.
  intros m. unfold run, profile_schedule, same_thresholds.
  destruct (lookup rid (relay_configs m)); reflexivity.
Qed.

(** Each threshold key present in the profile is installed and each absent
    one keeps its value; the CO2 [tubfans_low] threshold is never touched.
    The thresholds are set before any relay entry is, so a later error does
    not undo them. *)
Theorem update_config_from_profile_thresholds p m :
  let t := mthresholds m in
  let t' := mthresholds (update_config_from_profile p m) in
  low (humidity t') = get_or (p_humidity_low p) (low (humidity t)) /\
  high (humidity t') = get_or (p_humidity_high p) (high (humidity t)) /\
  low (temperature t') = get_or (p_temperature_low p) (low (temperature t)) /\
  high (temperature t') = get_or (p_temperature_high p) (high (temperature t)) /\
  co2_low (co2 t') = get_or (p_co2_low p) (co2_low (co2 t)) /\
  tubfans_low (co2 t') = tubfans_low (co2 t) /\
  co2_high (co2 t') = get_or (p_co2_high p) (co2_high (co2 t)).
Proof.
  intros t t'. subst t t'.
  unfold update_config_from_profile, profile_steps.
  set (rest := pseq (when_some (p_fan_cycle p) _) _).
  assert (Hrest : forall m0, mthresholds (match rest m0 with inl m' | inr m' => m' end)
                             = mthresholds m0).
  { assert (H : preserves same_thresholds rest).
    { unfold rest.
      assert (Rr : forall m0, same_thresholds m0 m0) by reflexivity.
      assert (Rt : forall m1 m2 m3, same_thresholds m1 m2 -> same_thresholds m2 m3 ->
                                    same_thresholds m1 m3)
        by (unfold same_thresholds; congruence).
      preserve_steps Rr Rt.
      all: first
        [ apply profile_cycle_same_thresholds
        | apply profile_schedule_same_thresholds
        | intros m0; reflexivity ]. }
    exact H. }
  clearbody rest.
  destruct (p_humidity_low p), (p_humidity_high p), (p_temperature_low p),
    (p_temperature_high p), (p_co2_low p), (p_co2_high p);
    cbn [pseq when_some set_thr relay_configs mthresholds];
    rewrite Hrest; cbn; repeat split.
Qed.

(** A statement sequence that never raises and leaves the relay table as it
    is (the threshold assignments). *)
Definition cfg_step (s : pstep) : Prop :=
  forall m, exists m1, s m = inr m1 /\ relay_configs m1 = relay_configs m.

Lemma set_thr_cfg g : cfg_step (set_thr g).
Proof. intros m. eexists. split; reflexivity. Qed.

Lemma when_some_cfg {A} (o : option A) (f : A -> pstep) :
  (forall a, cfg_step (f a)) -> cfg_step (when_some o f).
Proof. intros H. destruct o as [a|]; [exact (H a)|]. intros m. exists m. split; reflexivity. Qed.

Lemma run_pseq_cfg s1 s2 m :
  cfg_step s1 -> exists m1, run (pseq s1 s2) m = run s2 m1 /\ relay_configs m1 = relay_configs m.
Proof.
  intros H. destruct (H m) as [m1 [E1 E2]]. exists m1. split; [|exact E2].
  unfold run, pseq. rewrite E1. reflexivity.
Qed.

Ltac skip_thr_step :=
  match goal with
  | |- context [run (pseq ?s1 ?s2) ?m] =>
      let Hc := fresh "Hc" in let m1 := fresh "m" in let E := fresh "E" in
      assert (Hc : cfg_step s1) by (apply when_some_cfg; intros ?; apply set_thr_cfg);
      destruct (run_pseq_cfg s1 s2 m Hc) as [m1 [-> E]]; clear Hc
  end.

Lemma profile_cycle_some rid d i m c cy :
  lookup rid (relay_configs m) = Some c -> rcycle c = Some cy ->
  profile_cycle rid d i m =
  inr (with_configs m (update rid (set_rcycle (Some (mk_cycle d i (last_toggle cy))))
                         (relay_configs m))).
Proof. intros Hl Hc. unfold profile_cycle. rewrite Hl, Hc. reflexivity. Qed.

Lemma profile_cycle_no_cycle rid d i m c :
  lookup rid (relay_configs m) = Some c -> rcycle c = None ->
  profile_cycle rid d i m = inl m.
Proof. intros Hl Hc. unfold profile_cycle. rewrite Hl, Hc. reflexivity. Qed.

(** [fan_cycle] in the profile gives the Tub Fans ([relay4]) cycle the
    profile's duration and interval (15 and 60 when absent) and keeps its
    [last_toggle], provided [relay4] has a cycle. Later keys of the profile
    never change it, and an error on [relay7] does not undo it. *)
Theorem update_config_from_profile_fan_cycle p m fc c cy :
  p_fan_cycle p = Some fc ->
  lookup "relay4" (relay_configs m) = Some c -> rcycle c = Some cy ->
  exists c', lookup "relay4" (relay_configs (update_config_from_profile p m)) = Some c' /\
    rcycle c' = Some (mk_cycle (get_or (fst fc) 15%Z) (get_or (snd fc) 60%Z) (last_toggle cy)).
Proof.
  intros Hp Hl Hc.
  set (P := fun x : string => x = "relay4").
  assert (Rr := @same_on_refl _ P rcycle).
  assert (Rt := @same_on_trans _ P rcycle).
  change (update_config_from_profile p m) with (run (profile_steps p) m).
  unfold profile_steps.
  set (rest := pseq (when_some (p_light_cycle p) _) _).
  assert (Hrest : preserves (same_on P rcycle) rest).
  { unfold rest. preserve_steps Rr Rt.
    all: first
      [ apply set_thr_same_on
      | apply profile_cycle_preserves; unfold P; intros; discriminate
      | apply profile_schedule_preserves; intros; reflexivity
      | apply override_duration_preserves; intros; reflexivity ]. }
  clearbody rest.
  do 6 skip_thr_step.
  assert (Hl6 : lookup "relay4" (relay_configs m5) = Some c) by congruence.
  rewrite Hp. unfold run at 1. cbn [when_some]. unfold pseq. cbv beta.
  rewrite (profile_cycle_some "relay4" _ _ m5 c cy Hl6 Hc). cbv beta iota.
  set (m7 := with_configs m5 (update "relay4" _ (relay_configs m5))).
  assert (H7 : lookup "relay4" (relay_configs m7) =
               Some (set_rcycle (Some (mk_cycle (get_or (fst fc) 15%Z) (get_or (snd fc) 60%Z)
                                         (last_toggle cy))) c)).
  { unfold m7. cbn [with_configs relay_configs].
    rewrite lookup_update_same, Hl6. reflexivity. }
  assert (Hfin : forall m8, same_on P rcycle m7 m8 ->
    exists c', lookup "relay4" (relay_configs (run rest m8)) = Some c' /\
    rcycle c' = Some (mk_cycle (get_or (fst fc) 15%Z) (get_or (snd fc) 60%Z) (last_toggle cy))).
  { intros m8 H8.
    pose proof (Rt _ _ _ H8 (Hrest m8) "relay4" eq_refl) as Ef.
    rewrite H7 in Ef. cbn in Ef.
    destruct (lookup "relay4" (relay_configs (run rest m8))) as [c'|]; [|discriminate].
    exists c'. split; [reflexivity|]. cbn in Ef. injection Ef as Ef. exact Ef. }
  assert (Hn : P "relay7" -> forall c0 y, rcycle (set_rcycle y c0) = rcycle c0)
    by (unfold P; intros; discriminate).
  pose proof (profile_cycle_preserves P rcycle "relay7"
                (get_or (fst fc) 15%Z) (get_or (snd fc) 60%Z) Hn m7) as H7p.
  unfold run in H7p.
  destruct (profile_cycle "relay7" (get_or (fst fc) 15%Z) (get_or (snd fc) 60%Z) m7)
    as [m8|m8] eqn:E8.
  - specialize (H7p "relay4" eq_refl). rewrite H7 in H7p.
    destruct (lookup "relay4" (relay_configs m8)) as [c'|]; [|discriminate].
    exists c'. split; [reflexivity|]. injection H7p as H7p. exact H7p.
  - exact (Hfin m8 H7p).
Qed.

Definition no_profile : profile :=
  mk_profile None None None None None None None None None None None None.

Definition profile_fan20 : profile :=
  mk_profile (Some 60) None None None None None (Some (Some 20%Z, None))
    None None None None None.

Lemma update_config_from_profile_fan_cycle_witness :
  (p_fan_cycle profile_fan20 = Some (Some 20%Z, None) /\
   lookup "relay4" (relay_configs default_manager) =
     Some (default_relay "Tub Fans" 6 ["relay1"] true (Some (mk_cycle 15 60 0))) /\
   rcycle (default_relay "Tub Fans" 6 ["relay1"] true (Some (mk_cycle 15 60 0))) =
     Some (mk_cycle 15 60 0)) /\
  exists c', lookup "relay4" (relay_configs (update_config_from_profile profile_fan20
                                                default_manager)) = Some c' /\
    rcycle c' = Some (mk_cycle 20 60 0).
Proof.
  split; [repeat split|].
  exact (update_config_from_profile_fan_cycle profile_fan20 default_manager
           (Some 20%Z, None) _ (mk_cycle 15 60 0) eq_refl eq_refl eq_refl).
Defined.

(** When the profile has [fan_cycle] but [relay4] exists without a cycle,
    the assignment into its cycle raises and the rest of the update is
    skipped: the relay table is left exactly as it was (no cycle, schedule or
    override duration of the profile is applied). *)
Theorem update_config_from_profile_fan_cycle_abort p m fc c :
  p_fan_cycle p = Some fc ->
  lookup "relay4" (relay_configs m) = Some c -> rcycle c = None ->
  relay_configs (update_config_from_profile p m) = relay_configs m.
Proof.
  intros Hp Hl Hc.
  change (update_config_from_profile p m) with (run (profile_steps p) m).
  unfold profile_steps.
  set (rest := pseq (when_some (p_light_cycle p) _) _). clearbody rest.
  do 6 skip_thr_step.
  assert (Hl6 : lookup "relay4" (relay_configs m5) = Some c) by congruence.
  rewrite Hp. unfold run at 1. cbn [when_some]. unfold pseq. cbv beta.
  rewrite (profile_cycle_no_cycle "relay4" _ _ m5 c Hl6 Hc). cbv beta iota.
  congruence.
Qed.

Lemma update_config_from_profile_fan_cycle_abort_witness :
  let m := with_configs default_manager (update "relay4" (set_rcycle None) default_configs) in
  (p_fan_cycle profile_fan20 = Some (Some 20%Z, None) /\
   lookup "relay4" (relay_configs m) =
     Some (set_rcycle None (default_relay "Tub Fans" 6 ["relay1"] true (Some (mk_cycle 15 60 0)))) /\
   rcycle (set_rcycle None (default_relay "Tub Fans" 6 ["relay1"] true (Some (mk_cycle 15 60 0))))
     = None) /\
  relay_configs (update_config_from_profile profile_fan20 m) = relay_configs m.
Proof.
  intros m. split; [repeat split|].
  exact (update_config_from_profile_fan_cycle_abort profile_fan20 m _ _ eq_refl eq_refl eq_refl).
Defined.

(** A step that does not raise from a state satisfying [Q], and keeps [Q]. *)
Definition ok_step (Q : manager -> Prop) (s : pstep) : Prop :=
  forall m, Q m -> exists m', s m = inr m' /\ Q m'.

Lemma pseq_ok Q s1 s2 : ok_step Q s1 -> ok_step Q s2 -> ok_step Q (pseq s1 s2).
Proof.
  intros H1 H2 m HQ. destruct (H1 m HQ) as [m1 [E1 Q1]].
  unfold pseq. rewrite E1. exact (H2 m1 Q1).
Qed.

Lemma when_some_ok {A} Q (o : option A) (f : A -> pstep) :
  (forall a, ok_step Q (f a)) -> ok_step Q (when_some o f).
Proof. intros H. destruct o as [a|]; [exact (H a)|]. intros m HQ. exists m. auto. Qed.

Lemma pseq_ok_then (Q G : manager -> Prop) s1 s2 :
  ok_step Q s1 -> (forall m, Q m -> G (run s2 m)) ->
  forall m, Q m -> G (run (pseq s1 s2) m).
Proof.
  intros H1 H2 m HQ. destruct (H1 m HQ) as [m1 [E1 Q1]].
  unfold run, pseq. rewrite E1. exact (H2 m1 Q1).
Qed.

(** The relays whose cycle [_update_config_from_profile] writes into. *)
Definition profile_cycle_relays : list string := ["relay2"; "relay3"; "relay4"; "relay7"].

Definition cycles_present (m : manager) : Prop :=
  forall x c, In x profile_cycle_relays -> lookup x (relay_configs m) = Some c ->
              rcycle c <> None.

Lemma profile_cycle_ok rid d i :
  In rid profile_cycle_relays -> ok_step cycles_present (profile_cycle rid d i).
Proof.
  intros Hin m HQ. unfold profile_cycle.
  destruct (lookup rid (relay_configs m)) as [c|] eqn:El; [|exists m; auto].
  destruct (rcycle c) as [cy|] eqn:Ec; [| exfalso; exact (HQ rid c Hin El Ec)].
  eexists. split; [reflexivity|].
  intros x c' Hx. cbn [with_configs relay_configs].
  destruct (String.eqb_spec x rid) as [->|Hne].
  - rewrite lookup_update_same, El. cbn. intros H. injection H as <-. cbn. discriminate.
  - rewrite lookup_update_other by exact Hne. exact (HQ x c' Hx).
Qed.

Lemma profile_schedule_ok rid st en : ok_step cycles_present (profile_schedule rid st en).
Proof.
  intros m HQ. unfold profile_schedule.
  destruct (lookup rid (relay_configs m)) as [c|] eqn:El; [|exists m; auto].
  eexists. split; [reflexivity|].
  intros x c' Hx. cbn [with_configs relay_configs].
  destruct (String.eqb_spec x rid) as [->|Hne].
  - rewrite lookup_update_same, El. cbn. intros H. injection H as <-. cbn.
    exact (HQ rid c Hx El).
  - rewrite lookup_update_other by exact Hne. exact (HQ x c' Hx).
Qed.

Lemma set_thr_ok g : ok_step cycles_present (set_thr g).
Proof. intros m HQ. eexists. split; [reflexivity|]. exact HQ. Qed.

(** When the profile has [override_duration] and none of the cycle
    assignments raises (each of [relay2], [relay3], [relay4] and [relay7]
    is absent or has a cycle), every relay ends with the profile's override
    duration. *)
Theorem update_config_from_profile_override_duration p m d :
  p_override_duration p = Some d -> cycles_present m ->
  forall x c', lookup x (relay_configs (update_config_from_profile p m)) = Some c' ->
               override_duration c' = d.
Proof.
  intros Hp HQ.
  set (G := fun m' : manager => forall x c', lookup x (relay_configs m') = Some c' ->
                                             override_duration c' = d).
  change (G (run (profile_steps p) m)).
  revert m HQ. unfold profile_steps.
  repeat (apply pseq_ok_then;
    [ repeat first [ apply pseq_ok | apply when_some_ok; intros ?; cbv beta zeta ];
      first [ apply set_thr_ok
            | apply profile_cycle_ok; cbn; tauto
            | apply profile_schedule_ok ]
    | ]).
  rewrite Hp. intros m _ x c'. unfold run. cbn [when_some with_configs relay_configs].
  rewrite lookup_map_snd. destruct (lookup x (relay_configs m)); [|discriminate].
  cbn. intros H. injection H as <-. reflexivity.
Qed.

Definition profile_override600 : profile :=
  mk_profile None None None None None None (Some (None, Some 90%Z)) (Some (None, None))
    None None None (Some 600).

Lemma update_config_from_profile_override_duration_witness :
  p_override_duration profile_override600 = Some 600 /\ cycles_present default_manager /\
  forall x c', lookup x (relay_configs (update_config_from_profile profile_override600
                                           default_manager)) = Some c' ->
               override_duration c' = 600.
Proof.
  assert (HQ : cycles_present default_manager).
  { intros x c Hx. cbn in Hx.
    destruct Hx as [<-|[<-|[<-|[<-|[]]]]]; cbn; intros H; injection H as <-;
      cbn; discriminate. }
  split; [reflexivity|]. split; [exact HQ|].
  exact (update_config_from_profile_override_duration profile_override600 default_manager
           600 eq_refl HQ).
Defined.

(** ** Sensor reading loops *)

(** The values of the last good read among [its], seen through [sel] and
    [tm]; [acc] when there is none. *)
Definition last_dht (sel : dht_iter -> dht_outcome) (tm : dht_iter -> Q)
  (its : list dht_iter) (acc : Q * Q * Q) : Q * Q * Q :=
  fold_left (fun acc it => match sel it with DhtRead t h => (t, h, tm it) | _ => acc end)
    its acc.

Definition dht_values (e : dht_entry) : Q * Q * Q :=
  (dh_temperature e, dh_humidity e, dh_last_read e).

Lemma dht_block_values thr o now r e errs :
  dht_values (fst (dht_block thr o now r e errs)) =
  match o with DhtRead t h => (t, h, now) | _ => dht_values e end.
Proof.
  unfold dht_block. destruct o; cbn [fst];
    match goal with |- context [if ?b then _ else _] => destruct b end; reflexivity.
Qed.

Lemma dht_iteration_upper thr it s :
  upper (dht_iteration thr it s) =
  fst (dht_block thr (up_outcome it) (up_time it) (up_recovered it) (upper s) (errors_upper s)) /\
  errors_upper (dht_iteration thr it s) =
  snd (dht_block thr (up_outcome it) (up_time it) (up_recovered it) (upper s) (errors_upper s)).
Proof.
  unfold dht_iteration.
  destruct (dht_block thr (up_outcome it) _ _ _ _) as [u nu].
  destruct (dht_block thr (lo_outcome it) _ _ _ _) as [l nl]. split; reflexivity.
Qed.

Lemma dht_iteration_lower thr it s :
  lower (dht_iteration thr it s) =
  fst (dht_block thr (lo_outcome it) (lo_time it) (lo_recovered it) (lower s) (errors_lower s)) /\
  errors_lower (dht_iteration thr it s) =
  snd (dht_block thr (lo_outcome it) (lo_time it) (lo_recovered it) (lower s) (errors_lower s)).
Proof.
  unfold dht_iteration.
  destruct (dht_block thr (up_outcome it) _ _ _ _) as [u nu].
  destruct (dht_block thr (lo_outcome it) _ _ _ _) as [l nl]. split; reflexivity.
Qed.

(** After any run of [_dht_reading_loop], each DHT22 entry holds the
    temperature, humidity and time of that sensor's last good read; a
    [None] value or an exception never overwrites them, and with no good read
    they keep their initial values. *)
Theorem dht_loop_last_read thr its s :
  dht_values (upper (dht_loop thr its s)) = last_dht up_outcome up_time its (dht_values (upper s)) /\
  dht_values (lower (dht_loop thr its s)) = last_dht lo_outcome lo_time its (dht_values (lower s)).
Proof.
  unfold dht_loop, last_dht. revert s.
  induction its as [|it its IH]; intros s; cbn [fold_left]; [split; reflexivity|].
  destruct (IH (dht_iteration thr it s)) as [IHu IHl]. split.
  - rewrite IHu. f_equal. destruct (dht_iteration_upper thr it s) as [-> _].
    apply dht_block_values.
  - rewrite IHl. f_equal. destruct (dht_iteration_lower thr it s) as [-> _].
    apply dht_block_values.
Qed.

(** The error bookkeeping of one sensor: the local counter is below the
    threshold and the stored [errors] field is at most the threshold. *)
Definition dht_counter_ok (thr : Z) (e : dht_entry) (n : Z) : Prop :=
  (0 <= n < thr)%Z /\ (0 <= dh_errors e <= thr)%Z.

Lemma dht_block_counter_ok thr o now e n :
  dht_counter_ok thr e n ->
  dht_counter_ok thr (fst (dht_block thr o now true e n)) (snd (dht_block thr o now true e n)).
Proof.
  unfold dht_counter_ok, dht_block. intros [Hn He].
  destruct o; cbn [fst snd];
    match goal with |- context [if ?b then _ else _] => destruct b eqn:Eb end;
    cbn; apply Z.leb_le in Eb || apply Z.leb_gt in Eb; lia.
Qed.

(** When every recovery succeeds (the sensor object is re-created without
    error), the DHT loop keeps each local error counter below
    [error_threshold] and each stored [errors] field at most
    [error_threshold], whatever the reads give. *)
Theorem dht_loop_errors_bounded thr its s :
  Forall (fun it => up_recovered it = true /\ lo_recovered it = true) its ->
  dht_counter_ok thr (upper s) (errors_upper s) ->
  dht_counter_ok thr (lower s) (errors_lower s) ->
  dht_counter_ok thr (upper (dht_loop thr its s)) (errors_upper (dht_loop thr its s)) /\
  dht_counter_ok thr (lower (dht_loop thr its s)) (errors_lower (dht_loop thr its s)).
Proof.
  unfold dht_loop. revert s.
  induction its as [|it its IH]; intros s Hall Hu Hl; cbn [fold_left]; [split; assumption|].
  inversion Hall as [|? ? [Hru Hrl] Hrest]; subst.
  apply IH; [exact Hrest | |].
  - destruct (dht_iteration_upper thr it s) as [-> ->]. rewrite Hru.
    apply dht_block_counter_ok. exact Hu.
  - destruct (dht_iteration_lower thr it s) as [-> ->]. rewrite Hrl.
    apply dht_block_counter_ok. exact Hl.
Qed.

Definition dht_zero : dht_entry := mk_dht_entry 0 0 0 0.

Definition failing_iter : dht_iter := mk_dht_iter DhtRaise 0 true DhtNone 0 true.

Lemma dht_loop_errors_bounded_witness :
  let its := repeat failing_iter 12 in
  let s := mk_dht_state dht_zero dht_zero 0 0 in
  (Forall (fun it => up_recovered it = true /\ lo_recovered it = true) its /\
   dht_counter_ok error_threshold (upper s) (errors_upper s) /\
   dht_counter_ok error_threshold (lower s) (errors_lower s)) /\
  dht_counter_ok error_threshold (upper (dht_loop error_threshold its s))
    (errors_upper (dht_loop error_threshold its s)) /\
  dht_counter_ok error_threshold (lower (dht_loop error_threshold its s))
    (errors_lower (dht_loop error_threshold its s)).
Proof.
  intros its s.
  assert (H1 : Forall (fun it => up_recovered it = true /\ lo_recovered it = true) its)
    by (repeat constructor).
  assert (H2 : dht_counter_ok error_threshold (upper s) (errors_upper s))
    by (unfold dht_counter_ok, error_threshold; cbn; lia).
  assert (H3 : dht_counter_ok error_threshold (lower s) (errors_lower s))
    by (unfold dht_counter_ok, error_threshold; cbn; lia).
  split; [split; [exact H1 | split; assumption]|].
  exact (dht_loop_errors_bounded error_threshold its s H1 H2 H3).
Defined.

Definition is_dht_read (o : dht_outcome) : bool :=
  match o with DhtRead _ _ => true | _ => false end.

(** When the upper sensor never gives a good read and its recovery always
    fails, the local counter of the DHT loop grows by one per iteration
    (recovery is retried on every iteration once it reaches the threshold)
    and the stored [errors] field follows it. *)
Theorem dht_loop_errors_grow thr its s :
  Forall (fun it => is_dht_read (up_outcome it) = false /\ up_recovered it = false) its ->
  errors_upper (dht_loop thr its s) = (errors_upper s + Z.of_nat (List.length its))%Z /\
  (its <> [] -> dh_errors (upper (dht_loop thr its s)) = errors_upper (dht_loop thr its s)).
Proof.
  unfold dht_loop. revert s.
  induction its as [|it its IH]; intros s Hall; cbn [fold_left List.length].
  - split; [lia | congruence].
  - inversion Hall as [|? ? [Hread Hrec] Hrest]; subst.
    destruct (IH (dht_iteration thr it s) Hrest) as [IH1 IH2].
    destruct (dht_iteration_upper thr it s) as [Hu Hn].
    assert (Hstep : fst (dht_block thr (up_outcome it) (up_time it) (up_recovered it)
                                   (upper s) (errors_upper s)) =
                    set_dh_errors (errors_upper s + 1) (upper s) /\
                    snd (dht_block thr (up_outcome it) (up_time it) (up_recovered it)
                                   (upper s) (errors_upper s)) = (errors_upper s + 1)%Z).
    { rewrite Hrec. unfold dht_block.
      destruct (up_outcome it); [discriminate Hread | |];
        cbn [fst snd]; destruct (thr <=? errors_upper s + 1)%Z; split; reflexivity. }
    destruct Hstep as [Hs1 Hs2].
    split.
    + rewrite IH1, Hn, Hs2. lia.
    + intros _. destruct its as [|it' its'].
      * cbn [fold_left]. rewrite Hu, Hn, Hs1, Hs2. reflexivity.
      * apply IH2. discriminate.
Qed.

Definition read_fail_iter : dht_iter := mk_dht_iter DhtNone 7 false (DhtRead 21 60) 7 true.

Lemma dht_loop_errors_grow_witness :
  let its := repeat read_fail_iter 8 in
  let s := mk_dht_state dht_zero dht_zero 0 0 in
  Forall (fun it => is_dht_read (up_outcome it) = false /\ up_recovered it = false) its /\
  errors_upper (dht_loop error_threshold its s) = 8%Z /\
  dh_errors (upper (dht_loop error_threshold its s)) = 8%Z.
Proof.
  intros its s.
  assert (H : Forall (fun it => is_dht_read (up_outcome it) = false /\ up_recovered it = false)
                its) by (repeat constructor).
  destruct (dht_loop_errors_grow error_threshold its s H) as [H1 H2].
  split; [exact H|]. split.
  - rewrite H1. reflexivity.
  - rewrite H2 by discriminate. rewrite H1. reflexivity.
Defined.

(** The SCD40 counterpart of [last_dht]. *)
Definition last_scd (its : list (scd_outcome * Q * bool)) (acc : Q * Q * Q * Q)
  : Q * Q * Q * Q :=
  fold_left (fun acc (it : scd_outcome * Q * bool) =>
               let '(o, now, _) := it in
               match o with ScdRead c t h => (c, t, h, now) | _ => acc end) its acc.

Definition scd_values (e : scd_entry) : Q * Q * Q * Q :=
  (sc_co2 e, sc_temperature e, sc_humidity e, sc_last_read e).

Lemma scd_iteration_values thr o now r e errs :
  scd_values (fst (scd_iteration thr o now r e errs)) =
  match o with ScdRead c t h => (c, t, h, now) | _ => scd_values e end.
Proof.
  unfold scd_iteration. destruct o; cbn [fst];
    match goal with |- context [if ?b then _ else _] => destruct b end; reflexivity.
Qed.

(** After any run of [_scd_reading_loop], the SCD40 entry holds the CO2,
    temperature, humidity and time of the last good read; a pass where the
    data is not ready, a [None] value or an exception never overwrites them. *)
Theorem scd_loop_last_read thr its s :
  scd_values (fst (scd_loop thr its s)) = last_scd its (scd_values (fst s)).
Proof.
  unfold scd_loop, last_scd. revert s.
  induction its as [|[[o now] r] its IH]; intros s; cbn [fold_left]; [reflexivity|].
  rewrite IH. f_equal. apply scd_iteration_values.
Qed.

Definition scd_counter_ok (thr : Z) (s : scd_entry * Z) : Prop :=
  (0 <= snd s < thr)%Z /\ (0 <= sc_errors (fst s) <= thr)%Z.

(** When every recovery of the SCD40 succeeds, the loop keeps its local
    error counter below [error_threshold] and the stored [errors] field at
    most [error_threshold]. *)
Theorem scd_loop_errors_bounded thr its s :
  Forall (fun it : scd_outcome * Q * bool => snd it = true) its ->
  scd_counter_ok thr s -> scd_counter_ok thr (scd_loop thr its s).
Proof.
  unfold scd_loop. revert s.
  induction its as [|[[o now] r] its IH]; intros s Hall Hs; cbn [fold_left]; [exact Hs|].
  inversion Hall as [|? ? Hr Hrest]; subst. cbn [snd] in Hr. subst r.
  apply IH; [exact Hrest|].
  destruct s as [e n]. unfold scd_counter_ok in *. cbn [fst snd] in *.
  destruct Hs as [Hn He]. unfold scd_iteration.
  destruct o; cbn [fst snd];
    match goal with |- context [if ?b then _ else _] => destruct b eqn:Eb end;
    cbn; apply Z.leb_le in Eb || apply Z.leb_gt in Eb; lia.
Qed.

Lemma scd_loop_errors_bounded_witness :
  let its := [(ScdRaise, 0, true); (ScdNotReady, 1, true); (ScdNone, 2, true);
              (ScdRaise, 3, true); (ScdRaise, 4, true); (ScdNone, 5, true);
              (ScdNotReady, 6, true)] in
  (Forall (fun it : scd_outcome * Q * bool => snd it = true) its /\
   scd_counter_ok error_threshold (mk_scd_entry 0 0 0 0 0, 0%Z)) /\
  scd_counter_ok error_threshold (scd_loop error_threshold its (mk_scd_entry 0 0 0 0 0, 0%Z)).
Proof.
  intros its.
  assert (H1 : Forall (fun it : scd_outcome * Q * bool => snd it = true) its)
    by (repeat constructor).
  assert (H2 : scd_counter_ok error_threshold (mk_scd_entry 0 0 0 0 0, 0%Z))
    by (unfold scd_counter_ok, error_threshold; cbn; lia).
  split; [split; assumption|].
  exact (scd_loop_errors_bounded error_threshold its _ H1 H2).
Defined.

(** ** Turning a relay ON with its dependencies *)














